(** * Cerulean Labs bot: the referral, ambassador and engagement core

    A shallow embedding of [bot.py]: the SQLite tables become finite maps
    and lists, every handler becomes a function from the store to a new
    store and a reply, and the wall clock is an explicit argument. *)

From Stdlib Require Import ZArith Lia.
From stdpp Require Import base gmap strings list fin_maps pretty sorting.

Local Open Scope string_scope.
Local Open Scope list_scope.
Local Open Scope Z_scope.

(** ** Period calculator *)

Module Period.

(** What [datetime.now()] yields, as far as the bot reads it: the fields
    of the local calendar date. *)
Record datetime := mk_datetime {
  year : Z;
  month : Z;
  day : Z
}.

(** The proleptic Gregorian ordinal arithmetic that backs
    [datetime.isocalendar()] in the Python library. *)
Definition is_leap (y : Z) : bool :=
  (y mod 4 =? 0) && (negb (y mod 100 =? 0) || (y mod 400 =? 0)).

Definition days_before_year (y : Z) : Z :=
  let p := y - 1 in p * 365 + p / 4 - p / 100 + p / 400.

Definition days_in_month (y m : Z) : Z :=
  if m =? 2 then (if is_leap y then 29 else 28)
  else if (m =? 4) || (m =? 6) || (m =? 9) || (m =? 11) then 30
  else 31.

Fixpoint days_before_month_aux (y : Z) (n : nat) : Z :=
  match n with
  | O => 0
  | S k => days_before_month_aux y k + days_in_month y (Z.of_nat n)
  end.

(** Days of the year [y] that precede the first of month [m]. *)
Definition days_before_month (y m : Z) : Z :=
  days_before_month_aux y (Z.to_nat (m - 1)).

Definition ymd2ord (y m d : Z) : Z :=
  days_before_year y + days_before_month y m + d.

(** Ordinal of the Monday that starts ISO week 1 of year [y]. *)
Definition isoweek1monday (y : Z) : Z :=
  let firstday := ymd2ord y 1 1 in
  let firstweekday := (firstday + 6) mod 7 in
  let week1monday := firstday - firstweekday in
  if 3 <? firstweekday then week1monday + 7 else week1monday.

(** [now.isocalendar()]: (ISO year, ISO week, ISO weekday). *)
Definition isocalendar (now : datetime) : Z * Z * Z :=
  let y := year now in
  let week1monday := isoweek1monday y in
  let today := ymd2ord y (month now) (day now) in
  let week := (today - week1monday) / 7 in
  let wd := (today - week1monday) mod 7 in
  if week <? 0 then
    let week1monday' := isoweek1monday (y - 1) in
    (y - 1, (today - week1monday') / 7 + 1, (today - week1monday') mod 7 + 1)
  else if (52 <=? week) && (isoweek1monday (y + 1) <=? today) then
    (y + 1, 1, wd + 1)
  else (y, week + 1, wd + 1).

(** A date the [datetime] type can hold. *)
Definition valid_date (now : datetime) : Prop :=
  1 <= year now <= 9999 /\ 1 <= month now <= 12 /\
  1 <= day now <= days_in_month (year now) (month now).

(** The format spec [:02d]: decimal, padded with zeros to two columns. *)
Definition fmt_02d (n : Z) : string :=
  let s := pretty n in
  if (String.length s <? 2)%nat then "0" +:+ s else s.

(** [week = f"{now.year}-W{now.isocalendar()[1]:02d}"] *)
Definition week_key (now : datetime) : string :=
  pretty (year now) +:+ "-W" +:+ fmt_02d (isocalendar now).1.2.

(** [month = f"{now.year}-M{now.month:02d}"] *)
Definition month_key (now : datetime) : string :=
  pretty (year now) +:+ "-M" +:+ fmt_02d (month now).

Definition get_current_period (now : datetime) : string * string :=
  (week_key now, month_key now).

End Period.

Import Period.

Arguments week_key : simpl never.
Arguments month_key : simpl never.

(** ** The store: one field per table of [init_database] *)

(** [ambassadors (user_id INTEGER PRIMARY KEY, username, points, created_at)] *)
Record ambassador := mk_ambassador {
  amb_username : string;
  points : Z;
  created_at : Z
}.

(** [users (user_id INTEGER PRIMARY KEY, referrer, status, joined_at)] *)
Record user := mk_user {
  referrer : option Z;
  user_status : string;
  joined_at : Z
}.

(** [referrals (user_id INTEGER PRIMARY KEY, referrer_id, username, status,
    completed_at, period)]; [referrer_id] and [completed_at] are the two
    columns some INSERT leaves NULL. *)
Record referral := mk_referral {
  referrer_id : option Z;
  ref_username : string;
  ref_status : string;
  completed_at : option Z;
  period : string
}.

(** [engagement (id AUTOINCREMENT, user_id, username, message_count,
    last_message_at, period, UNIQUE(user_id, period))]; rows are kept in
    rowid order, which stands for the [id] column. *)
Record engagement_row := mk_engagement {
  eng_user_id : Z;
  eng_username : string;
  message_count : Z;
  last_message_at : Z;
  eng_period : string
}.

(** [winners (id AUTOINCREMENT, category, period, user_id, username, count,
    reward, awarded_at)], again in rowid order. *)
Record winner := mk_winner {
  category : string;
  win_period : string;
  win_user_id : Z;
  win_username : string;
  win_count : Z;
  reward : string;
  awarded_at : Z
}.

Record db := mk_db {
  ambassadors : gmap Z ambassador;
  users : gmap Z user;
  referrals : gmap Z referral;
  engagement : list engagement_row;
  winners : list winner
}.

Definition empty_db : db := mk_db ∅ ∅ ∅ [] [].

Definition set_ambassadors (f : gmap Z ambassador → gmap Z ambassador) (d : db) : db :=
  mk_db (f (ambassadors d)) (users d) (referrals d) (engagement d) (winners d).
Definition set_users (f : gmap Z user → gmap Z user) (d : db) : db :=
  mk_db (ambassadors d) (f (users d)) (referrals d) (engagement d) (winners d).
Definition set_referrals (f : gmap Z referral → gmap Z referral) (d : db) : db :=
  mk_db (ambassadors d) (users d) (f (referrals d)) (engagement d) (winners d).

(** ** Configuration constants *)

Definition ADMIN_IDS : list Z := [6454727490].
Definition GROUP_CHAT_ID : Z := -1002664797681.
Definition POINTS_PER_REFERRAL : Z := 1.

(** ** The two clocks a handler reads: [datetime.now()] for the period
    keys and SQLite's [CURRENT_TIMESTAMP] for the timestamp columns. *)
Record clock := mk_clock {
  now : datetime;
  current_timestamp : Z
}.

(** ** Exceptions inside a handler's [try] block *)

Inductive exn := ValueError | OverflowError.

Definition result (A : Type) : Type := exn + A.

Definition ret {A} (x : A) : result A := inr x.
Definition raise {A} (e : exn) : result A := inl e.
Definition bind {A B} (m : result A) (k : A → result B) : result B :=
  match m with
  | inl e => inl e
  | inr x => k x
  end.

Notation "'do' x <- m ; k" := (bind m (fun x => k))
  (at level 10, x name, m at level 100, k at level 200).
Notation "'do' '_' <- m ; k" := (bind m (fun _ => k))
  (at level 10, m at level 100, k at level 200).

(** [int(text)] applied to a link or button payload: the payload arrives
    already split off, [None] standing for text that [int] rejects. *)
Definition parse_int (payload : option Z) : result Z :=
  match payload with
  | Some z => ret z
  | None => raise ValueError
  end.

(** Binding a Python integer to a [?] of a statement: the sqlite3 module
    refuses what does not fit SQLite's 64-bit INTEGER. *)
Definition sqlite_int (z : Z) : bool := (- 2 ^ 63 <=? z) && (z <? 2 ^ 63).

Definition bind_param (z : Z) : result unit :=
  if sqlite_int z then ret () else raise OverflowError.

(** [try: body  except Exception: reply error], with nothing written
    before the point where [body] can raise. *)
Definition catch {A} (body : result A) (handler : A) : A :=
  match body with
  | inl _ => handler
  | inr x => x
  end.

(** [user.username or f"{prefix}{user_id}"] *)
Definition display_name (prefix : string) (user_id : Z) (username : option string) : string :=
  match username with
  | Some s => if decide (s = "") then prefix +:+ pretty user_id else s
  | None => prefix +:+ pretty user_id
  end.

(** ** What a handler sends back

    One constructor per message text of [bot.py]; the arguments are the
    values interpolated into the text or the keyboard. *)
Inductive reply :=
| invalid_ambassador_link        (* "Invalid ambassador referral link." *)
| own_referral_link              (* "You cannot use your own referral link!" *)
| ambassador_tasks_done          (* "You've already completed ambassador tasks!" *)
| show_ambassador_tasks (referrer_id : Z) (referrer_username : string)
| referral_tasks_done            (* "You've already completed referral tasks this month!" *)
| show_referral_tasks (referrer_id : Z) (referrer_username : string)
| welcome_menu                   (* "Welcome to Cerulean Labs!" and the four buttons *)
| error_occurred                 (* "An error occurred. Please try again." *)
| already_ambassador             (* "You're already an ambassador!" *)
| now_ambassador (user_id : Z)   (* "You're now a Cerulean Labs Ambassador!" *)
| referral_contest_link (user_id : Z)  (* "Your Referral Contest Link" *)
| tasks_completed_ambassador     (* "Tasks completed! Thank you for joining!" *)
| tasks_completed_referral       (* "Tasks completed! Your referrer gets credit!" *)
| already_completed              (* "Already completed!" *)
| admin_only                     (* "Admin only." *)
| weekly_reset_done (week : string)  (* "Weekly engagement reset for {week}!" *)
| database_reset                 (* "Database has been completely reset." *)
| reset_cancelled                (* "Reset cancelled. Data is safe." *)
| query_result                   (* statistics, leaderboards, reports, prompts *)
| no_reply.                      (* nothing reaches the chat *)

(** ** [/start]: opening a referral link *)

(** [context.args] as [start] looks at it. *)
Inductive start_arg :=
| amb_ (payload : option Z)      (* args[0].startswith("amb_") *)
| ref_ (payload : option Z)      (* args[0].startswith("ref_") *)
| no_link.

Definition start_body (c : clock) (user_id : Z) (username : option string)
    (arg : start_arg) (d : db) : result (db * reply) :=
  let username := display_name "User" user_id username in
  match arg with
  | amb_ payload =>
      do referrer_id <- parse_int payload;
      do _ <- bind_param referrer_id;
      match ambassadors d !! referrer_id with
      | None => ret (d, invalid_ambassador_link)
      | Some referrer_info =>
          if decide (referrer_id = user_id) then ret (d, own_referral_link)
          else
            do _ <- bind_param user_id;
            match users d !! user_id with
            | Some existing =>
                if decide (user_status existing = "completed")
                then ret (d, ambassador_tasks_done)
                else ret (d, show_ambassador_tasks referrer_id (amb_username referrer_info))
            | None =>
                ret (set_users
                       (insert user_id
                          (mk_user (Some referrer_id) "pending" (current_timestamp c))) d,
                     show_ambassador_tasks referrer_id (amb_username referrer_info))
            end
      end
  | ref_ payload =>
      do referrer_id <- parse_int payload;
      if decide (referrer_id = user_id) then ret (d, own_referral_link)
      else
        do _ <- bind_param referrer_id;
        let referrer_username :=
          match referrals d !! referrer_id with
          | Some referrer_info => ref_username referrer_info
          | None => "Unknown"
          end in
        let month := (get_current_period (now c)).2 in
        do _ <- bind_param user_id;
        let existing :=
          match referrals d !! user_id with
          | Some r => if decide (period r = month) then Some r else None
          | None => None
          end in
        match existing with
        | Some r =>
            if decide (ref_status r = "completed")
            then ret (d, referral_tasks_done)
            else ret (d, show_referral_tasks referrer_id referrer_username)
        | None =>
            (* INSERT OR REPLACE: [user_id] is the primary key, so a row of
               another period is replaced; [completed_at] is not listed *)
            ret (set_referrals
                   (insert user_id
                      (mk_referral (Some referrer_id) username "pending" None month)) d,
                 show_referral_tasks referrer_id referrer_username)
        end
  | no_link => ret (d, welcome_menu)
  end.

Definition start (c : clock) (user_id : Z) (username : option string)
    (arg : start_arg) (d : db) : db * reply :=
  catch (start_body c user_id username arg d) (d, error_occurred).

(** ** [/become_ambassador], also reached from the menu button

    From the button [update.message] is [None]: the row is inserted and
    committed, then the reply raises and the handler swallows it. *)
Definition become_ambassador (c : clock) (via_button : bool) (user_id : Z)
    (username : option string) (d : db) : db * reply :=
  let username := display_name "id" user_id username in
  catch
    (do _ <- bind_param user_id;
     match ambassadors d !! user_id with
     | Some existing =>
         ret (d, if via_button then no_reply else already_ambassador)
     | None =>
         ret (set_ambassadors
                (insert user_id (mk_ambassador username 0 (current_timestamp c))) d,
              if via_button then no_reply else now_ambassador user_id)
     end)
    (d, if via_button then no_reply else error_occurred).

(** ** [/get_referral_link], also reached from the menu button *)
Definition get_referral_link (c : clock) (user_id : Z) (username : option string)
    (d : db) : db * reply :=
  let username := display_name "User" user_id username in
  let month := (get_current_period (now c)).2 in
  catch
    (do _ <- bind_param user_id;
     match referrals d !! user_id with
     | Some existing => ret (d, referral_contest_link user_id)
     | None =>
         ret (set_referrals
                (insert user_id (mk_referral None username "completed" None month)) d,
              referral_contest_link user_id)
     end)
    (d, error_occurred).

(** ** Engagement tracking *)

(** [INSERT ... VALUES (?, ?, 1, CURRENT_TIMESTAMP, ?) ON CONFLICT(user_id,
    period) DO UPDATE SET message_count = message_count + 1, ...] *)
Fixpoint upsert_engagement (user_id : Z) (username : string) (stamp : Z)
    (week : string) (rows : list engagement_row) : list engagement_row :=
  match rows with
  | [] => [mk_engagement user_id username 1 stamp week]
  | r :: rest =>
      if decide (eng_user_id r = user_id ∧ eng_period r = week)
      then mk_engagement user_id username (message_count r + 1) stamp week :: rest
      else r :: upsert_engagement user_id username stamp week rest
  end.

Definition track_engagement (c : clock) (chat_type : string) (chat_id : Z)
    (user_id : Z) (username : option string) (d : db) : db * reply :=
  if decide (chat_type ≠ "group" ∧ chat_type ≠ "supergroup") then (d, no_reply)
  else if decide (GROUP_CHAT_ID ≠ 0 ∧ chat_id ≠ GROUP_CHAT_ID) then (d, no_reply)
  else
    let username := display_name "User" user_id username in
    let week := (get_current_period (now c)).1 in
    catch
      (do _ <- bind_param user_id;
       ret (mk_db (ambassadors d) (users d) (referrals d)
              (upsert_engagement user_id username (current_timestamp c) week
                 (engagement d))
              (winners d),
            no_reply))
      (d, no_reply).

(** ** Button callbacks *)

(** [query.data] as [button] looks at it. *)
Inductive callback_data :=
| amb_done_ (payload : option Z)   (* data.startswith("amb_done_") *)
| ref_done_ (payload : option Z)   (* data.startswith("ref_done_") *)
| become_amb
| get_ref
| my_stats_button
| leaderboards_button
| other_data.

Definition complete_user (u : user) : user :=
  mk_user (referrer u) "completed" (joined_at u).

Definition add_points (n : Z) (a : ambassador) : ambassador :=
  mk_ambassador (amb_username a) (points a + n) (created_at a).

Definition complete_referral (stamp : Z) (r : referral) : referral :=
  mk_referral (referrer_id r) (ref_username r) "completed" (Some stamp) (period r).

Definition button (c : clock) (user_id : Z) (username : option string)
    (data : callback_data) (d : db) : db * reply :=
  match data with
  | amb_done_ payload =>
      catch
        (do referrer_id <- parse_int payload;
         do _ <- bind_param user_id;
         do _ <- bind_param referrer_id;
         (* SELECT status FROM users WHERE user_id=? AND referrer=? *)
         let record :=
           match users d !! user_id with
           | Some u => if decide (referrer u = Some referrer_id) then Some u else None
           | None => None
           end in
         match record with
         | Some u =>
             if decide (user_status u ≠ "completed") then
               ret (set_ambassadors (alter (add_points POINTS_PER_REFERRAL) referrer_id)
                      (set_users (alter complete_user user_id) d),
                    tasks_completed_ambassador)
             else ret (d, already_completed)
         | None => ret (d, already_completed)
         end)
        (d, error_occurred)
  | ref_done_ payload =>
      catch
        (do referrer_id <- parse_int payload;
         let month := (get_current_period (now c)).2 in
         do _ <- bind_param user_id;
         (* SELECT status FROM referrals WHERE user_id=? AND period=? *)
         let record :=
           match referrals d !! user_id with
           | Some r => if decide (period r = month) then Some r else None
           | None => None
           end in
         match record with
         | Some r =>
             if decide (ref_status r ≠ "completed") then
               ret (set_referrals
                      (alter (complete_referral (current_timestamp c)) user_id) d,
                    tasks_completed_referral)
             else ret (d, already_completed)
         | None => ret (d, already_completed)
         end)
        (d, error_occurred)
  | become_amb => become_ambassador c true user_id username d
  | get_ref => get_referral_link c user_id username d
  | my_stats_button => (d, query_result)
  | leaderboards_button => (d, query_result)
  | other_data => (d, no_reply)
  end.

(** ** Counting queries of [my_stats] *)

(** [SELECT COUNT( * ) FROM users WHERE referrer=? AND status='completed'] *)
Definition ambassador_referral_count (d : db) (referrer_ : Z) : nat :=
  size (filter (λ kv : Z * user,
                  referrer kv.2 = Some referrer_ ∧ user_status kv.2 = "completed")
          (users d)).

(** [SELECT COUNT( * ) FROM referrals WHERE referrer_id=? AND
    status='completed' AND period=?] *)
Definition referral_count (d : db) (referrer_ : Z) (month : string) : nat :=
  size (filter (λ kv : Z * referral,
                  referrer_id kv.2 = Some referrer_ ∧ ref_status kv.2 = "completed"
                  ∧ period kv.2 = month)
          (referrals d)).

(** ** Admin operations *)

(** [SELECT 'engagement', period, user_id, username, message_count,
    'Archived' FROM engagement], with [awarded_at] taking its default. *)
Definition archive_row (stamp : Z) (e : engagement_row) : winner :=
  mk_winner "engagement" (eng_period e) (eng_user_id e) (eng_username e)
    (message_count e) "Archived" stamp.

Definition reset_weekly_engagement (c : clock) (user_id : Z) (d : db) : db * reply :=
  if decide (user_id ∉ ADMIN_IDS) then (d, admin_only)
  else
    let week := (get_current_period (now c)).1 in
    (mk_db (ambassadors d) (users d) (referrals d)
       (filter (λ e, eng_period e ≠ week) (engagement d))
       (winners d ++
          map (archive_row (current_timestamp c))
            (filter (λ e, eng_period e = week) (engagement d))),
     weekly_reset_done week).

(** [confirm] tells the "confirm_reset" button from "cancel_reset". *)
Definition confirm_reset_handler (user_id : Z) (confirm : bool) (d : db) : db * reply :=
  if decide (user_id ∉ ADMIN_IDS) then (d, no_reply)
  else if confirm then (empty_db, database_reset)
  else (d, reset_cancelled).

(** ** The dispatcher of [main]: one constructor per registered handler
    that can reach the store *)
Inductive update :=
| cmd_start (user_id : Z) (username : option string) (arg : start_arg)
| cmd_become_ambassador (user_id : Z) (username : option string)
| cmd_get_referral_link (user_id : Z) (username : option string)
| text_message (chat_type : string) (chat_id : Z) (user_id : Z) (username : option string)
| button_pressed (user_id : Z) (username : option string) (data : callback_data)
| cmd_reset_weekly (user_id : Z)
| reset_button (user_id : Z) (confirm : bool)
| read_only_command (user_id : Z).   (* stats, leaderboards, report, export,
                                        reset prompt, archive views *)

Definition dispatch (c : clock) (u : update) (d : db) : db * reply :=
  match u with
  | cmd_start user_id username arg => start c user_id username arg d
  | cmd_become_ambassador user_id username => become_ambassador c false user_id username d
  | cmd_get_referral_link user_id username => get_referral_link c user_id username d
  | text_message chat_type chat_id user_id username =>
      track_engagement c chat_type chat_id user_id username d
  | button_pressed user_id username data => button c user_id username data d
  | cmd_reset_weekly user_id => reset_weekly_engagement c user_id d
  | reset_button user_id confirm => confirm_reset_handler user_id confirm d
  | read_only_command _ => (d, query_result)
  end.

(** Stores the bot can be in: the fresh database, then any sequence of
    updates, each handled at its own time. *)
Inductive reachable : db → Prop :=
| reachable_init : reachable empty_db
| reachable_step c u d : reachable d → reachable (dispatch c u d).1.

Fixpoint run (trace : list (clock * update)) (d : db) : db :=
  match trace with
  | [] => d
  | (c, u) :: rest => run rest (dispatch c u d).1
  end.

(** ** Relationships a "Done!" click can complete *)

(** The row an ambassador "Done!" click selects. *)
Definition open_ambassador_task (d : db) (referred referrer_ : Z) : Prop :=
  ∃ u, users d !! referred = Some u ∧ referrer u = Some referrer_
       ∧ user_status u ≠ "completed".

(** The row a contest "Done!" click selects. *)
Definition open_contest_task (d : db) (referred : Z) (month : string) : Prop :=
  ∃ r, referrals d !! referred = Some r ∧ period r = month
       ∧ ref_status r ≠ "completed".

(** The two rejections of a referral link: an unknown ambassador and the
    visitor's own link. *)
Definition validation_error (r : reply) : Prop :=
  r = invalid_ambassador_link ∨ r = own_referral_link.

(** ** How one update can change the ambassadors table *)

(** The confirmed full reset, the only update that deletes ambassadors. *)
Definition is_full_reset (u : update) : Prop :=
  match u with
  | reset_button _ true => True
  | _ => False
  end.

Inductive ambassadors_change (before after : gmap Z ambassador) (r : reply) : Prop :=
| change_none :
    after = before → ambassadors_change before after r
| change_registered user_id row :
    before !! user_id = None → points row = 0 →
    after = <[user_id := row]> before → ambassadors_change before after r
| change_credited referrer_ :
    r = tasks_completed_ambassador →
    after = alter (add_points POINTS_PER_REFERRAL) referrer_ before →
    ambassadors_change before after r.


(** ** Read-only handlers *)

(** [SELECT message_count FROM engagement WHERE user_id=? AND period=?]
    followed by [fetchone]. *)
Definition engagement_of (d : db) (user_id : Z) (week : string) : option engagement_row :=
  head (filter (λ e, eng_user_id e = user_id ∧ eng_period e = week) (engagement d)).

(** What [my_stats] prints: each field is [None] when its block is left
    out of the text. *)
Record stats := mk_stats {
  shown_points : option Z;
  shown_ambassador_referrals : option nat;
  shown_contest_referrals : option nat;
  shown_messages : option Z
}.

(** [my_stats]; [None] stands for the "Error loading stats." answer. *)
Definition my_stats (c : clock) (user_id : Z) (d : db) : option stats :=
  catch
    (do _ <- bind_param user_id;
     let amb := ambassadors d !! user_id in
     let week := (get_current_period (now c)).1 in
     let month := (get_current_period (now c)).2 in
     let ref_count := referral_count d user_id month in
     let eng := engagement_of d user_id week in
     ret (Some (mk_stats
       (points <$> amb)
       (match amb with
        | Some _ => Some (ambassador_referral_count d user_id)
        | None => None
        end)
       (if decide ((0 < ref_count)%nat ∨ amb = None) then Some ref_count else None)
       (match eng with
        | Some e => if decide (0 < message_count e) then Some (message_count e) else None
        | None => None
        end))))
    None.

(** The figures of the admin [report]. *)
Record report_data := mk_report {
  report_ambassadors : nat;
  report_points : Z;
  report_referrals : nat;
  report_engaged : nat;
  report_messages : Z
}.

(** [SELECT SUM(points) FROM ambassadors], with [or 0] for the empty table. *)
Definition total_points (m : gmap Z ambassador) : Z :=
  map_fold (λ _ a acc, points a + acc) 0 m.

(** [SELECT SUM(message_count) FROM engagement WHERE period=?], with [or 0]. *)
Definition total_messages (week : string) (rows : list engagement_row) : Z :=
  foldr (λ e acc, message_count e + acc) 0 (filter (λ e, eng_period e = week) rows).

(** [report]: silent for everyone outside [ADMIN_IDS]. *)
Definition report (c : clock) (user_id : Z) (d : db) : option report_data :=
  if decide (user_id ∉ ADMIN_IDS) then None
  else
    let week := (get_current_period (now c)).1 in
    let month := (get_current_period (now c)).2 in
    Some (mk_report
      (size (ambassadors d))
      (total_points (ambassadors d))
      (size (filter (λ kv : Z * referral,
                       ref_status kv.2 = "completed" ∧ period kv.2 = month)
               (referrals d)))
      (length (filter (λ e, eng_period e = week) (engagement d)))
      (total_messages week (engagement d))).

(** Who sent an update. *)
Definition sender (u : update) : Z :=
  match u with
  | cmd_start user_id _ _ => user_id
  | cmd_become_ambassador user_id _ => user_id
  | cmd_get_referral_link user_id _ => user_id
  | text_message _ _ user_id _ => user_id
  | button_pressed user_id _ _ => user_id
  | cmd_reset_weekly user_id => user_id
  | reset_button user_id _ => user_id
  | read_only_command user_id => user_id
  end.

(** The columns of the [UNIQUE(user_id, period)] constraint. *)
Definition engagement_key (e : engagement_row) : Z * string :=
  (eng_user_id e, eng_period e).

(** A message [track_engagement] counts: sent in a group or supergroup
    whose id is [GROUP_CHAT_ID]. *)
Definition tracked_chat (chat_type : string) (chat_id : Z) : Prop :=
  (chat_type = "group" ∨ chat_type = "supergroup") ∧ chat_id = GROUP_CHAT_ID.

(** ** The writes of the bot, one constructor per statement that changes
    a table *)

(** What the handlers open to every user can write. *)
Inductive user_write (c : clock) (d : db) : db → Prop :=
| write_nothing :
    user_write c d d
| write_ambassador_referral B A :        (* INSERT INTO users, in [start] *)
    users d !! B = None → A ≠ B → is_Some (ambassadors d !! A) →
    user_write c d (set_users (insert B (mk_user (Some A) "pending" (current_timestamp c))) d)
| write_ambassador U name :              (* INSERT INTO ambassadors *)
    ambassadors d !! U = None →
    user_write c d (set_ambassadors (insert U (mk_ambassador name 0 (current_timestamp c))) d)
| write_ambassador_completion B A u :    (* the two UPDATEs of "amb_done_" *)
    users d !! B = Some u → referrer u = Some A → user_status u ≠ "completed" →
    user_write c d (set_ambassadors (alter (add_points POINTS_PER_REFERRAL) A)
                 (set_users (alter complete_user B) d))
| write_contest_referral C D name :      (* INSERT OR REPLACE INTO referrals *)
    D ≠ C →
    (∀ r, referrals d !! C = Some r → period r ≠ (get_current_period (now c)).2) →
    user_write c d (set_referrals
                 (insert C (mk_referral (Some D) name "pending" None
                              (get_current_period (now c)).2)) d)
| write_link_owner U name :              (* INSERT INTO referrals, own link *)
    referrals d !! U = None →
    user_write c d (set_referrals
                 (insert U (mk_referral None name "completed" None
                              (get_current_period (now c)).2)) d)
| write_contest_completion C r :         (* UPDATE referrals of "ref_done_" *)
    referrals d !! C = Some r → period r = (get_current_period (now c)).2 →
    ref_status r ≠ "completed" →
    user_write c d (set_referrals (alter (complete_referral (current_timestamp c)) C) d)
| write_message user_id name :           (* the engagement upsert *)
    user_write c d (mk_db (ambassadors d) (users d) (referrals d)
                 (upsert_engagement user_id name (current_timestamp c)
                    (get_current_period (now c)).1 (engagement d))
                 (winners d)).

(** All writes: those of every user and the two admin operations. *)
Inductive write (c : clock) (d : db) : db → Prop :=
| write_by_user d' :
    user_write c d d' → write c d d'
| write_weekly_reset :                   (* archive, then DELETE of the week *)
    write c d (mk_db (ambassadors d) (users d) (referrals d)
                 (filter (λ e, eng_period e ≠ (get_current_period (now c)).1)
                    (engagement d))
                 (winners d ++
                    map (archive_row (current_timestamp c))
                      (filter (λ e, eng_period e = (get_current_period (now c)).1)
                         (engagement d))))
| write_full_reset :                     (* the five DELETEs *)
    write c d empty_db.

(** ** Shapes of stored rows *)

(** An ambassador relationship: referred by an existing ambassador other
    than oneself, pending or completed. *)
Definition users_well_formed (d : db) : Prop :=
  ∀ B u, users d !! B = Some u →
    ∃ A, referrer u = Some A ∧ A ≠ B ∧ is_Some (ambassadors d !! A)
         ∧ (user_status u = "pending" ∨ user_status u = "completed").

(** The "Points" and "Referrals" lines of [my_stats] agree. *)
Definition points_match_referrals (d : db) : Prop :=
  ∀ A a, ambassadors d !! A = Some a →
    points a = Z.of_nat (ambassador_referral_count d A) * POINTS_PER_REFERRAL.

(** A contest row of identity [U]: never referred by [U] itself, and either
    pending under a referrer, completed under a referrer with its completion
    time, or the completed row without referrer of a link owner. *)
Definition referral_well_formed (U : Z) (r : referral) : Prop :=
  referrer_id r ≠ Some U
  ∧ ((ref_status r = "pending" ∧ completed_at r = None ∧ is_Some (referrer_id r))
     ∨ (ref_status r = "completed" ∧ is_Some (completed_at r) ∧ is_Some (referrer_id r))
     ∨ (ref_status r = "completed" ∧ completed_at r = None ∧ referrer_id r = None)).

(** What an update may do to the contest row [r] of its own sender: leave
    it, complete it within its month, or, when it belongs to another month,
    replace it by a pending row of the current month ([INSERT OR REPLACE]
    on the primary key). *)
Definition own_contest_row_change (c : clock) (r : referral)
    (after : option referral) : Prop :=
  after = Some r
  ∨ (period r = (get_current_period (now c)).2 ∧ ref_status r ≠ "completed"
     ∧ after = Some (complete_referral (current_timestamp c) r))
  ∨ (period r ≠ (get_current_period (now c)).2
     ∧ ∃ D name, after = Some (mk_referral (Some D) name "pending" None
                                 (get_current_period (now c)).2)).

(** Contest rows between two stores around an update of [who]: the rows of
    everybody else are the same, the row of [who] changes as above. *)
Definition contest_rows_confined (c : clock) (who : Z) (d d' : db) : Prop :=
  (∀ C, C ≠ who → referrals d' !! C = referrals d !! C)
  ∧ (∀ r, referrals d !! who = Some r →
       own_contest_row_change c r (referrals d' !! who)).

(** The other tables between two stores: the archive is the same; every
    ambassador keeps name and creation time and loses no point; every
    relationship is the same or completed; no message count went down. *)
Definition tables_kept (d d' : db) : Prop :=
  winners d' = winners d
  ∧ (∀ A a, ambassadors d !! A = Some a →
       ∃ a', ambassadors d' !! A = Some a' ∧ amb_username a' = amb_username a
             ∧ created_at a' = created_at a ∧ points a ≤ points a')
  ∧ (∀ B u, users d !! B = Some u →
       users d' !! B = Some u ∨ users d' !! B = Some (complete_user u))
  ∧ (∀ user_id week e, engagement_of d user_id week = Some e →
       ∃ e', engagement_of d' user_id week = Some e'
             ∧ message_count e ≤ message_count e').

(** Strings without a minus sign, as the decimal form of a year is. *)
Fixpoint dash_free (s : string) : Prop :=
  match s with
  | EmptyString => True
  | String a rest => String a "" ≠ "-" ∧ dash_free rest
  end.

(** ** Leaderboards *)

(** [ORDER BY figure DESC]: a line may stand before another when its figure
    is not smaller. *)
Definition more_first (a b : string * Z) : Prop := b.2 ≤ a.2.

#[global] Instance more_first_dec (a b : string * Z) : Decision (more_first a b) :=
  decide (b.2 ≤ a.2).

(** [ORDER BY figure DESC LIMIT 10] over lines (name, figure). SQL leaves
    the order of equal figures open, so every list that is the first ten of
    some non-increasing arrangement of the rows is a possible result. *)
Definition top_ten (rows top : list (string * Z)) : Prop :=
  ∃ sorted, sorted ≡ₚ rows ∧ StronglySorted more_first sorted ∧ top = take 10 sorted.

(** [SELECT username, message_count FROM engagement WHERE period=?] *)
Definition engagement_entries (d : db) (week : string) : list (string * Z) :=
  (λ e, (eng_username e, message_count e)) <$>
    filter (λ e, eng_period e = week) (engagement d).

(** [engagement_leaderboard]: the lines it can print for the current week. *)
Definition engagement_leaderboard (c : clock) (d : db) (top : list (string * Z)) : Prop :=
  top_ten (engagement_entries d (get_current_period (now c)).1) top.

(** [SELECT username, count FROM winners WHERE category='engagement' AND
    period=?] *)
Definition archive_entries (d : db) (week : string) : list (string * Z) :=
  (λ w, (win_username w, win_count w)) <$>
    filter (λ w, category w = "engagement" ∧ win_period w = week) (winners d).

(** [show_archive_detail], for the week named by the pressed button: it
    answers admins only. *)
Definition show_archive_detail (user_id : Z) (week : string) (d : db)
    (top : list (string * Z)) : Prop :=
  user_id ∈ ADMIN_IDS ∧ top_ten (archive_entries d week) top.

(** One result of the ordering, computed by a merge sort. *)
Definition top_ten_sorted (rows : list (string * Z)) : list (string * Z) :=
  take 10 (merge_sort more_first rows).

(** ** Sample runs used to exercise the handlers *)

Definition jan15 : clock := mk_clock (mk_datetime 2025 1 15) 1736935200.
Definition jan20 : clock := mk_clock (mk_datetime 2025 1 20) 1737367200.
Definition feb10 : clock := mk_clock (mk_datetime 2025 2 10) 1739181600.

(** Ambassador 1001 registers, then 1002 opens the ambassador link. *)
Definition ambassador_pending_db : db :=
  run [(jan15, cmd_become_ambassador 1001 (Some "alice"));
       (jan15, cmd_start 1002 (Some "bob") (amb_ (Some 1001)))] empty_db.

(** 2003 opens the contest link of 2004 in January and clicks "Done!". *)
Definition contest_completed_db : db :=
  run [(jan15, cmd_start 2003 (Some "carol") (ref_ (Some 2004)));
       (jan15, button_pressed 2003 (Some "carol") (ref_done_ (Some 2004)))] empty_db.

(** Two members write in the tracked group in week 3 of 2025, one of them
    also a week later. *)
Definition engagement_db : db :=
  run [(jan15, text_message "supergroup" GROUP_CHAT_ID 3001 (Some "dave"));
       (jan15, text_message "supergroup" GROUP_CHAT_ID 3002 None);
       (jan15, text_message "supergroup" GROUP_CHAT_ID 3001 (Some "dave"));
       (jan20, text_message "supergroup" GROUP_CHAT_ID 3001 (Some "dave"))] empty_db.

(** * Properties *)

(** ** The period calculator on known dates *)

Example isocalendar_2024_12_30 :
  isocalendar (mk_datetime 2024 12 30) = (2025, 1, 1).
Proof. vm_compute. reflexivity. Qed.

Example period_2024_12_30 :
  get_current_period (mk_datetime 2024 12 30) = ("2024-W01", "2024-M12").
Proof. vm_compute. reflexivity. Qed.

Example period_2025_01_01 :
  get_current_period (mk_datetime 2025 1 1) = ("2025-W01", "2025-M01").
Proof. vm_compute. reflexivity. Qed.

Example isocalendar_2021_01_03 :
  isocalendar (mk_datetime 2021 1 3) = (2020, 53, 7).
Proof. vm_compute. reflexivity. Qed.

Example isocalendar_2026_11_04 :
  isocalendar (mk_datetime 2026 11 4) = (2026, 45, 3).
Proof. vm_compute. reflexivity. Qed.

(** ** Shared facts about the store and the handlers *)

(** Runs the exception plumbing of a handler as far as it is decided. *)
Ltac handler_steps :=
  cbv beta iota delta [catch bind ret raise parse_int bind_param]; cbn [fst snd].

Lemma bind_param_ok z : sqlite_int z = true → bind_param z = ret ().
Proof. unfold bind_param. intros ->. reflexivity. Qed.

Lemma status_pending_not_completed : "pending" ≠ "completed".
Proof. discriminate. Qed.

(** What the first "Done!" click does to a relationship that is not yet
    completed. *)
Lemma button_amb_done_credit c B A uname d u :
  sqlite_int B = true → sqlite_int A = true →
  users d !! B = Some u → referrer u = Some A → user_status u ≠ "completed" →
  button c B uname (amb_done_ (Some A)) d =
    (set_ambassadors (alter (add_points POINTS_PER_REFERRAL) A)
       (set_users (alter complete_user B) d),
     tasks_completed_ambassador).
Proof.
  intros HB HA Hu Hr Hs. unfold button; simpl.
  rewrite (bind_param_ok _ HB), (bind_param_ok _ HA); simpl.
  rewrite Hu. destruct (decide (referrer u = Some A)); [|done].
  destruct (decide (user_status u ≠ "completed")); [reflexivity|done].
Qed.

(** What a "Done!" click does once the relationship is completed. *)
Lemma button_amb_done_again c B A uname d u :
  sqlite_int B = true → sqlite_int A = true →
  users d !! B = Some u → user_status u = "completed" →
  button c B uname (amb_done_ (Some A)) d = (d, already_completed).
Proof.
  intros HB HA Hu Hs. unfold button; simpl.
  rewrite (bind_param_ok _ HB), (bind_param_ok _ HA); simpl.
  rewrite Hu. destruct (decide (referrer u = Some A)); [|done].
  destruct (decide (user_status u ≠ "completed")); [done|reflexivity].
Qed.

(** C1. With a pending ambassador relationship of B under ambassador A, the
    first completion click of B for A answers "tasks completed", sets B's
    status to "completed" and raises A's points by POINTS_PER_REFERRAL (to
    1 when A had 0); a second click with the same arguments changes nothing
    in the store and answers "Already completed!". *)
Theorem ambassador_completion_credits_once
    (c1 c2 : clock) (B A : Z) (name1 name2 : option string) (d : db)
    (u : user) (a : ambassador) :
  sqlite_int B = true → sqlite_int A = true →
  users d !! B = Some u → referrer u = Some A → user_status u = "pending" →
  ambassadors d !! A = Some a →
  let first := button c1 B name1 (amb_done_ (Some A)) d in
  let second := button c2 B name2 (amb_done_ (Some A)) first.1 in
  first.2 = tasks_completed_ambassador
  ∧ users first.1 !! B = Some (mk_user (Some A) "completed" (joined_at u))
  ∧ ambassadors first.1 !! A =
      Some (mk_ambassador (amb_username a) (points a + POINTS_PER_REFERRAL) (created_at a))
  ∧ (points a = 0 →
     ∃ a', ambassadors first.1 !! A = Some a' ∧ points a' = 1)
  ∧ second = (first.1, already_completed).
Proof.
  intros HB HA Hu Hr Hs Ha first second.
  assert (Hne : user_status u ≠ "completed")
    by (rewrite Hs; apply status_pending_not_completed).
  assert (Hfirst : first =
    (set_ambassadors (alter (add_points POINTS_PER_REFERRAL) A)
       (set_users (alter complete_user B) d), tasks_completed_ambassador))
    by (apply (button_amb_done_credit c1 B A name1 d u); assumption).
  assert (HuB : users first.1 !! B = Some (mk_user (Some A) "completed" (joined_at u))).
  { rewrite Hfirst; simpl. rewrite lookup_alter_eq, Hu; simpl.
    unfold complete_user. by rewrite Hr. }
  assert (HaA : ambassadors first.1 !! A =
      Some (mk_ambassador (amb_username a) (points a + POINTS_PER_REFERRAL) (created_at a))).
  { rewrite Hfirst; simpl. by rewrite lookup_alter_eq, Ha. }
  split; [by rewrite Hfirst|]. split; [exact HuB|]. split; [exact HaA|].
  split.
  - intros H0. eexists; split; [exact HaA|]. simpl. rewrite H0. reflexivity.
  - subst second. eapply button_amb_done_again; eauto.
Qed.

Lemma ambassador_completion_credits_once_witness :
  let first := button jan15 1002 (Some "bob") (amb_done_ (Some 1001)) ambassador_pending_db in
  let second := button jan20 1002 (Some "bob") (amb_done_ (Some 1001)) first.1 in
  users ambassador_pending_db !! 1002 = Some (mk_user (Some 1001) "pending" 1736935200)
  ∧ ambassadors ambassador_pending_db !! 1001 = Some (mk_ambassador "alice" 0 1736935200)
  ∧ first.2 = tasks_completed_ambassador
  ∧ users first.1 !! 1002 = Some (mk_user (Some 1001) "completed" 1736935200)
  ∧ (∃ a', ambassadors first.1 !! 1001 = Some a' ∧ points a' = 1)
  ∧ second = (first.1, already_completed).
Proof.
  pose proof (ambassador_completion_credits_once jan15 jan20 1002 1001
                (Some "bob") (Some "bob") ambassador_pending_db
                (mk_user (Some 1001) "pending" 1736935200)
                (mk_ambassador "alice" 0 1736935200)
                eq_refl eq_refl eq_refl eq_refl eq_refl eq_refl) as H.
  vm_compute in H. destruct H as (H1 & H2 & _ & H4 & H5).
  vm_compute. repeat split; try assumption.
  apply H4. reflexivity.
Defined.

(** ** C2: the week key at the turn of the year *)

(** C2. [get_current_period] pairs the ISO week number with the calendar
    year: 30 December 2024 and 1 January 2025 lie in the same ISO week
    (2025, week 1) and get the keys "2024-W01" and "2025-W01", while
    1 January 2024, of ISO week (2024, week 1), shares the key "2024-W01"
    with 30 December 2024. *)
Theorem week_key_mixes_calendar_year_and_iso_week :
  let dec30 := mk_datetime 2024 12 30 in
  let jan1 := mk_datetime 2025 1 1 in
  let jan1_2024 := mk_datetime 2024 1 1 in
  (isocalendar dec30).1 = (2025, 1) ∧ (isocalendar jan1).1 = (2025, 1)
  ∧ (get_current_period dec30).1 = "2024-W01"
  ∧ (get_current_period jan1).1 = "2025-W01"
  ∧ (get_current_period dec30).1 ≠ (get_current_period jan1).1
  ∧ (isocalendar jan1_2024).1 = (2024, 1)
  ∧ (isocalendar jan1_2024).1 ≠ (isocalendar dec30).1
  ∧ (get_current_period jan1_2024).1 = (get_current_period dec30).1.
Proof.
  vm_compute. repeat split; congruence.
Qed.

(** ** C3: re-entering the contest in a later month *)

(** How [start] answers a contest link when the visitor has no row of the
    current month. *)
Lemma start_ref_registers c C D name d :
  sqlite_int C = true → sqlite_int D = true → D ≠ C →
  (∀ r, referrals d !! C = Some r → period r ≠ (get_current_period (now c)).2) →
  ∃ shown,
    start c C name (ref_ (Some D)) d =
      (set_referrals
         (insert C (mk_referral (Some D) (display_name "User" C name) "pending" None
                      (get_current_period (now c)).2)) d,
       show_referral_tasks D shown).
Proof.
  intros HC HD Hne Hper. unfold start, start_body; simpl.
  destruct (decide (D = C)) as [|_]; [done|].
  rewrite (bind_param_ok _ HD), (bind_param_ok _ HC); simpl.
  destruct (referrals d !! C) as [r|] eqn:Hr.
  - destruct (decide (period r = month_key (now c))) as [Heq|_].
    + exfalso. by apply (Hper r).
    + eexists. reflexivity.
  - eexists. reflexivity.
Qed.

Lemma contest_reentry_loses_january_credit :
  let reopened := (start feb10 2003 (Some "carol") (ref_ (Some 2004)) contest_completed_db).1 in
  referrals contest_completed_db !! 2003 =
    Some (mk_referral (Some 2004) "carol" "completed" (Some 1736935200) "2025-M01")
  ∧ referral_count contest_completed_db 2004 "2025-M01" = 1%nat
  ∧ referrals reopened !! 2003 =
      Some (mk_referral (Some 2004) "carol" "pending" None "2025-M02")
  ∧ referral_count reopened 2004 "2025-M01" = 0%nat
  ∧ referral_count reopened 2004 "2025-M01"
      ≠ referral_count contest_completed_db 2004 "2025-M01".
Proof. vm_compute. repeat split; congruence. Qed.

(** C3 (amended). When C holds a completed contest row for referrer D of
    month P1 and opens D's contest link in another month P2, the tasks are
    shown and C's single row is replaced by a pending row of period P2 under
    D: the completed row of P1 is gone, D's completed count for P1 drops by
    exactly one, and the rows of all other identities are untouched. *)
Theorem contest_reentry_replaces_row
    (c : clock) (C D : Z) (name : option string) (d : db) (r : referral) :
  sqlite_int C = true → sqlite_int D = true → D ≠ C →
  referrals d !! C = Some r → referrer_id r = Some D →
  ref_status r = "completed" → period r ≠ (get_current_period (now c)).2 →
  let P1 := period r in
  let P2 := (get_current_period (now c)).2 in
  let res := start c C name (ref_ (Some D)) d in
  (∃ shown, res.2 = show_referral_tasks D shown)
  ∧ referrals res.1 !! C =
      Some (mk_referral (Some D) (display_name "User" C name) "pending" None P2)
  ∧ (∀ i, i ≠ C → referrals res.1 !! i = referrals d !! i)
  ∧ referral_count d D P1 = S (referral_count res.1 D P1)
  ∧ ambassadors res.1 = ambassadors d ∧ users res.1 = users d.
Proof.
  intros HC HD Hne Hr Href Hst Hper P1 P2 res.
  destruct (start_ref_registers c C D name d HC HD Hne) as [shown Hstart].
  { intros r' Hr'. rewrite Hr in Hr'. by inversion Hr'; subst. }
  subst res. rewrite Hstart; simpl.
  split; [by eexists|]. split; [by rewrite lookup_insert_eq|].
  split; [by intros i Hi; rewrite lookup_insert_ne|].
  split; [|done].
  unfold referral_count; simpl.
  rewrite map_filter_insert_False.
  2:{ simpl. intros (_ & Hpend & _). discriminate Hpend. }
  rewrite map_filter_delete, map_size_delete.
  assert (Hin : filter (λ kv : Z * referral,
                  referrer_id kv.2 = Some D ∧ ref_status kv.2 = "completed"
                  ∧ period kv.2 = P1) (referrals d) !! C = Some r).
  { apply map_lookup_filter_Some. split; [exact Hr|]. simpl. done. }
  rewrite Hin.
  assert (Hpos : (0 < size (filter (λ kv : Z * referral,
                  referrer_id kv.2 = Some D ∧ ref_status kv.2 = "completed"
                  ∧ period kv.2 = P1) (referrals d)))%nat).
  { destruct (decide (size (filter (λ kv : Z * referral,
                  referrer_id kv.2 = Some D ∧ ref_status kv.2 = "completed"
                  ∧ period kv.2 = P1) (referrals d)) = 0%nat)) as [H0|H0]; [|lia].
    apply map_size_empty_iff in H0. rewrite H0 in Hin.
    by rewrite lookup_empty in Hin. }
  lia.
Qed.

Lemma contest_reentry_replaces_row_witness :
  let res := start feb10 2003 (Some "carol") (ref_ (Some 2004)) contest_completed_db in
  referrals res.1 !! 2003 =
    Some (mk_referral (Some 2004) "carol" "pending" None "2025-M02")
  ∧ referral_count contest_completed_db 2004 "2025-M01"
      = S (referral_count res.1 2004 "2025-M01").
Proof.
  pose proof (contest_reentry_replaces_row feb10 2003 2004 (Some "carol")
                contest_completed_db
                (mk_referral (Some 2004) "carol" "completed" (Some 1736935200) "2025-M01")
                eq_refl eq_refl) as H.
  vm_compute in H.
  destruct H as (_ & H2 & _ & H4 & _); try reflexivity; try discriminate.
  vm_compute. split; [exact H2 | exact H4].
Defined.

(** ** C4: the weekly archive and reset *)

Lemma filter_period_split (week : string) (rows : list engagement_row) :
  filter (λ e, eng_period e = week) (filter (λ e, eng_period e ≠ week) rows) = [].
Proof.
  induction rows as [|e rows IH]; [reflexivity|].
  rewrite (filter_cons (λ e, eng_period e ≠ week)).
  destruct (decide (eng_period e ≠ week)) as [Hne|Heq]; [|exact IH].
  rewrite filter_cons. destruct (decide (eng_period e = week)); [done|exact IH].
Qed.

Lemma archive_rows_match (stamp : Z) (week : string) (rows : list engagement_row) :
  Forall2 (λ e w,
      category w = "engagement" ∧ reward w = "Archived"
      ∧ win_period w = week ∧ win_user_id w = eng_user_id e
      ∧ win_username w = eng_username e ∧ win_count w = message_count e)
    (filter (λ e, eng_period e = week) rows)
    (map (archive_row stamp) (filter (λ e, eng_period e = week) rows)).
Proof.
  induction rows as [|e rows IH]; [constructor|].
  rewrite filter_cons. destruct (decide (eng_period e = week)) as [He|_]; [|exact IH].
  cbn [map]. constructor; [|exact IH].
  unfold archive_row; cbn. by rewrite He.
Qed.

(** C4. When an admin runs the weekly reset, afterwards the engagement table
    has no row of the current week, and the winners table is the old one
    followed by exactly one new row per engagement row of that week, in
    order, each of category "engagement", reward "Archived", with the
    period, user, display name and message count of its engagement row;
    engagement rows of other weeks and the other tables stay as they were. *)
Theorem weekly_reset_archives_then_clears (c : clock) (admin : Z) (d : db) :
  admin ∈ ADMIN_IDS →
  let week := (get_current_period (now c)).1 in
  let before := filter (λ e, eng_period e = week) (engagement d) in
  let res := reset_weekly_engagement c admin d in
  res.2 = weekly_reset_done week
  ∧ filter (λ e, eng_period e = week) (engagement res.1) = []
  ∧ (∃ added,
       winners res.1 = winners d ++ added
       ∧ length added = length before
       ∧ Forall2 (λ e w,
             category w = "engagement" ∧ reward w = "Archived"
             ∧ win_period w = week ∧ win_user_id w = eng_user_id e
             ∧ win_username w = eng_username e ∧ win_count w = message_count e)
           before added)
  ∧ engagement res.1 = filter (λ e, eng_period e ≠ week) (engagement d)
  ∧ ambassadors res.1 = ambassadors d ∧ users res.1 = users d
  ∧ referrals res.1 = referrals d.
Proof.
  intros Hadmin week before res. subst res. unfold reset_weekly_engagement.
  destruct (decide (admin ∉ ADMIN_IDS)) as [Hno|_]; [done|].
  cbn [fst snd engagement winners ambassadors users referrals].
  fold week. fold before.
  split; [reflexivity|]. split; [apply filter_period_split|].
  split; [|done].
  exists (map (archive_row (current_timestamp c)) before).
  split; [reflexivity|]. split; [by rewrite length_map|].
  apply archive_rows_match.
Qed.

Lemma weekly_reset_archives_then_clears_witness :
  let res := reset_weekly_engagement jan15 6454727490 engagement_db in
  engagement res.1 = [mk_engagement 3001 "dave" 1 1737367200 "2025-W04"]
  ∧ winners res.1 =
      [mk_winner "engagement" "2025-W03" 3001 "dave" 2 "Archived" 1736935200;
       mk_winner "engagement" "2025-W03" 3002 "User3002" 1 "Archived" 1736935200].
Proof.
  pose proof (weekly_reset_archives_then_clears jan15 6454727490 engagement_db) as H.
  assert (Hadmin : 6454727490 ∈ ADMIN_IDS) by (apply list_elem_of_In; left; reflexivity).
  specialize (H Hadmin). cbv zeta in H.
  destruct H as (_ & _ & _ & H4 & _).
  split; [rewrite H4|]; vm_compute; reflexivity.
Defined.

(** ** C5: generating one's own contest link *)

Lemma own_link_row_is_completed :
  let res := get_referral_link jan15 3001 (Some "dave") empty_db in
  referrals empty_db !! 3001 = None
  ∧ referrals res.1 !! 3001 = Some (mk_referral None "dave" "completed" None "2025-M01")
  ∧ ¬ (∀ r, referrals res.1 !! 3001 = Some r → ref_status r ≠ "completed").
Proof.
  vm_compute. split; [reflexivity|]. split; [reflexivity|].
  intros H. exact (H _ eq_refl eq_refl).
Qed.

(** C5 (amended). For an identity without a contest-referral row,
    generating the own contest link answers with the link and creates a row
    for that identity with status "completed", no referrer and no
    [completed_at], in the current month; it credits nobody: no ambassador
    and no ambassador relationship changes, no other contest row changes,
    and no referrer's completed count of any month changes. *)
Theorem own_link_registers_without_credit
    (c : clock) (U : Z) (name : option string) (d : db) :
  sqlite_int U = true → referrals d !! U = None →
  let res := get_referral_link c U name d in
  res.2 = referral_contest_link U
  ∧ referrals res.1 !! U =
      Some (mk_referral None (display_name "User" U name) "completed" None
              (get_current_period (now c)).2)
  ∧ (∀ i, i ≠ U → referrals res.1 !! i = referrals d !! i)
  ∧ ambassadors res.1 = ambassadors d ∧ users res.1 = users d
  ∧ (∀ v p, referral_count res.1 v p = referral_count d v p).
Proof.
  intros HU Hnone res. subst res. unfold get_referral_link.
  rewrite (bind_param_ok _ HU). unfold bind, ret. rewrite Hnone.
  unfold catch, set_referrals. cbn [fst snd referrals ambassadors users].
  split; [reflexivity|]. split; [by rewrite lookup_insert_eq|].
  split; [by intros i Hi; rewrite lookup_insert_ne|].
  split; [reflexivity|]. split; [reflexivity|].
  intros v p. unfold referral_count. cbn [referrals].
  rewrite map_filter_insert_not'; [reflexivity| |].
  - cbn. intros (Href & _). discriminate Href.
  - intros y Hy. rewrite Hnone in Hy. discriminate Hy.
Qed.

Lemma own_link_registers_without_credit_witness :
  let res := get_referral_link jan15 3001 (Some "dave") empty_db in
  res.2 = referral_contest_link 3001
  ∧ referrals res.1 !! 3001 = Some (mk_referral None "dave" "completed" None "2025-M01").
Proof.
  pose proof (own_link_registers_without_credit jan15 3001 (Some "dave") empty_db
                eq_refl eq_refl) as H.
  cbv zeta in H. destruct H as (H1 & H2 & _).
  split; [exact H1|]. rewrite H2. vm_compute. reflexivity.
Defined.

(** ** C6: the outcomes of a "Done!" click *)

Lemma missing_relationship_answers_already_completed :
  let unknown := button jan15 1002 (Some "bob") (amb_done_ (Some 1001)) empty_db in
  let completed_db :=
    (button jan15 1002 (Some "bob") (amb_done_ (Some 1001)) ambassador_pending_db).1 in
  let again := button jan20 1002 (Some "bob") (amb_done_ (Some 1001)) completed_db in
  let unknown_ref := button jan15 2003 (Some "carol") (ref_done_ (Some 2004)) empty_db in
  let again_ref :=
    button jan15 2003 (Some "carol") (ref_done_ (Some 2004)) contest_completed_db in
  users empty_db !! 1002 = None
  ∧ users completed_db !! 1002 = Some (mk_user (Some 1001) "completed" 1736935200)
  ∧ unknown.2 = already_completed ∧ again.2 = already_completed
  ∧ ¬ (unknown.2 ≠ again.2)
  ∧ referrals empty_db !! 2003 = None
  ∧ unknown_ref.2 = already_completed ∧ again_ref.2 = already_completed
  ∧ ¬ (unknown_ref.2 ≠ again_ref.2).
Proof.
  vm_compute. repeat split; try reflexivity; intros H; apply H; reflexivity.
Qed.

(** C6 (amended). A "Done!" click by an identity within SQLite's integer
    range has two outcomes, "Tasks completed!" and "Already completed!".
    The ambassador button is credited exactly when the users row of the
    clicking identity names the referrer of the button and is not completed.
    The contest button is credited exactly when the referrals row of the
    clicking identity belongs to the current month and is not completed; the
    referrer named by the button is not consulted, so every referrer id
    gives the same result and the row keeps the referrer it was registered
    under. Every other click is answered "Already completed!" and leaves the
    store unchanged: when there is no row at all, when the row is
    completed, when the users row names another referrer, and when the
    contest row belongs to another month, pending or not. A click without
    any relationship is therefore answered like a repeated click. *)
Theorem task_done_reports_two_outcomes
    (c : clock) (user_id A : Z) (name : option string) (d : db) :
  sqlite_int user_id = true → sqlite_int A = true →
  let month := (get_current_period (now c)).2 in
  let amb := button c user_id name (amb_done_ (Some A)) d in
  let ref := button c user_id name (ref_done_ (Some A)) d in
  (amb.2 = tasks_completed_ambassador ∨ amb = (d, already_completed))
  ∧ (ref.2 = tasks_completed_referral ∨ ref = (d, already_completed))
  ∧ (amb.2 = tasks_completed_ambassador ↔ open_ambassador_task d user_id A)
  ∧ (ref.2 = tasks_completed_referral ↔ open_contest_task d user_id month)
  ∧ (¬ open_ambassador_task d user_id A → amb = (d, already_completed))
  ∧ (¬ open_contest_task d user_id month → ref = (d, already_completed))
  ∧ (∀ D, button c user_id name (ref_done_ (Some D)) d = ref)
  ∧ (∀ r, referrals d !! user_id = Some r →
       referrer_id <$> referrals ref.1 !! user_id = Some (referrer_id r))
  ∧ (users d !! user_id = None → amb = (d, already_completed))
  ∧ (∀ u, users d !! user_id = Some u →
       referrer u ≠ Some A ∨ user_status u = "completed" →
       amb = (d, already_completed))
  ∧ (referrals d !! user_id = None → ref = (d, already_completed))
  ∧ (∀ r, referrals d !! user_id = Some r →
       period r ≠ month ∨ ref_status r = "completed" →
       ref = (d, already_completed)).
Proof.
  intros Hu HA month amb ref.
  assert (Hamb_open : open_ambassador_task d user_id A →
                      amb.2 = tasks_completed_ambassador).
  { subst amb. unfold button, parse_int, bind, ret, bind_param.
    rewrite Hu, HA. unfold catch.
    intros (u & Hl & Hr & Hs). rewrite Hl.
    destruct (decide (referrer u = Some A)); [|done].
    destruct (decide (user_status u ≠ "completed")); [reflexivity|done]. }
  assert (Hamb_else : ¬ open_ambassador_task d user_id A →
                      amb = (d, already_completed)).
  { subst amb. unfold button, parse_int, bind, ret, bind_param.
    rewrite Hu, HA. unfold catch.
    intros Hno. destruct (users d !! user_id) as [u|] eqn:Hl; [|reflexivity].
    destruct (decide (referrer u = Some A)) as [Hr|]; [|reflexivity].
    destruct (decide (user_status u ≠ "completed")) as [Hs|]; [|reflexivity].
    exfalso. apply Hno. by exists u. }
  assert (Href_open : open_contest_task d user_id month →
                      ref.2 = tasks_completed_referral).
  { subst ref month. unfold button, parse_int, bind, ret, bind_param.
    rewrite Hu. unfold catch.
    intros (r & Hl & Hp & Hs). rewrite Hl.
    destruct (decide (period r = (get_current_period (now c)).2)); [|done].
    destruct (decide (ref_status r ≠ "completed")); [reflexivity|done]. }
  assert (Href_else : ¬ open_contest_task d user_id month →
                      ref = (d, already_completed)).
  { subst ref month. unfold button, parse_int, bind, ret, bind_param.
    rewrite Hu. unfold catch.
    intros Hno. destruct (referrals d !! user_id) as [r|] eqn:Hl; [|reflexivity].
    destruct (decide (period r = (get_current_period (now c)).2)) as [Hp|];
      [|reflexivity].
    destruct (decide (ref_status r ≠ "completed")) as [Hs|]; [|reflexivity].
    exfalso. apply Hno. by exists r. }
  assert (Hamb_dec : open_ambassador_task d user_id A
                     ∨ ¬ open_ambassador_task d user_id A).
  { unfold open_ambassador_task.
    destruct (users d !! user_id) as [u|]; [|right; by intros (u & Hl & _)].
    destruct (decide (referrer u = Some A)) as [Hr|Hr];
      [|right; intros (u' & [= <-] & Hr' & _); done].
    destruct (decide (user_status u = "completed")) as [Hs|Hs];
      [right; intros (u' & [= <-] & _ & Hs'); done|].
    left. by exists u. }
  assert (Href_dec : open_contest_task d user_id month
                     ∨ ¬ open_contest_task d user_id month).
  { unfold open_contest_task.
    destruct (referrals d !! user_id) as [r|]; [|right; by intros (r & Hl & _)].
    destruct (decide (period r = month)) as [Hp|Hp];
      [|right; intros (r' & [= <-] & Hp' & _); done].
    destruct (decide (ref_status r = "completed")) as [Hs|Hs];
      [right; intros (r' & [= <-] & _ & Hs'); done|].
    left. by exists r. }
  repeat match goal with |- _ ∧ _ => split end.
  - destruct Hamb_dec as [H|H]; [left; by apply Hamb_open|right; by apply Hamb_else].
  - destruct Href_dec as [H|H]; [left; by apply Href_open|right; by apply Href_else].
  - split; [|exact Hamb_open]. intros Hc.
    destruct Hamb_dec as [H|H]; [exact H|].
    rewrite (Hamb_else H) in Hc. discriminate Hc.
  - split; [|exact Href_open]. intros Hc.
    destruct Href_dec as [H|H]; [exact H|].
    rewrite (Href_else H) in Hc. discriminate Hc.
  - exact Hamb_else.
  - exact Href_else.
  - intros D. reflexivity.
  - intros r Hr. destruct Href_dec as [H|H].
    + subst ref month. unfold button, parse_int, bind, ret, bind_param.
      rewrite Hu. unfold catch. rewrite Hr.
      destruct (decide (period r = (get_current_period (now c)).2));
        [|handler_steps; by rewrite Hr].
      destruct (decide (ref_status r ≠ "completed")); [|handler_steps; by rewrite Hr].
      handler_steps. cbn [referrals set_referrals]. by rewrite lookup_alter_eq, Hr.
    + rewrite (Href_else H). cbn [fst]. by rewrite Hr.
  - intros Hnone. apply Hamb_else. intros (u & Hl & _). rewrite Hnone in Hl.
    discriminate Hl.
  - intros u Hl Hcase. apply Hamb_else. intros (u' & Hl' & Hr & Hs).
    rewrite Hl in Hl'. injection Hl' as <-. destruct Hcase as [Hc|Hc]; done.
  - intros Hnone. apply Href_else. intros (r & Hl & _). rewrite Hnone in Hl.
    discriminate Hl.
  - intros r Hl Hcase. apply Href_else. intros (r' & Hl' & Hp & Hs).
    rewrite Hl in Hl'. injection Hl' as <-. destruct Hcase as [Hc|Hc]; done.
Qed.

Lemma task_done_reports_two_outcomes_witness :
  let pending := (start jan15 2003 (Some "carol") (ref_ (Some 2004)) empty_db).1 in
  (button jan15 1002 (Some "bob") (amb_done_ (Some 1001)) ambassador_pending_db).2
    = tasks_completed_ambassador
  ∧ button jan15 1002 (Some "bob") (amb_done_ (Some 1001)) empty_db
    = (empty_db, already_completed)
  ∧ (button jan15 2003 (Some "carol") (ref_done_ (Some 5555)) pending).2
    = tasks_completed_referral
  ∧ button feb10 2003 (Some "carol") (ref_done_ (Some 2004)) pending
    = (pending, already_completed).
Proof.
  intros pending.
  pose proof (task_done_reports_two_outcomes jan15 1002 1001 (Some "bob")
                ambassador_pending_db eq_refl eq_refl) as H1.
  pose proof (task_done_reports_two_outcomes jan15 1002 1001 (Some "bob")
                empty_db eq_refl eq_refl) as H2.
  pose proof (task_done_reports_two_outcomes jan15 2003 5555 (Some "carol")
                pending eq_refl eq_refl) as H3.
  pose proof (task_done_reports_two_outcomes feb10 2003 2004 (Some "carol")
                pending eq_refl eq_refl) as H4.
  cbv zeta in H1, H2, H3, H4.
  destruct H1 as (_ & _ & [_ H1] & _).
  destruct H2 as (_ & _ & _ & _ & _ & _ & _ & _ & H2 & _).
  destruct H3 as (_ & _ & _ & [_ H3] & _).
  destruct H4 as (_ & _ & _ & _ & _ & _ & _ & _ & _ & _ & _ & H4).
  split; [|split; [|split]].
  - apply H1. exists (mk_user (Some 1001) "pending" 1736935200).
    vm_compute. repeat split; try reflexivity. discriminate.
  - apply H2. vm_compute. reflexivity.
  - apply H3. exists (mk_referral (Some 2004) "carol" "pending" None "2025-M01").
    vm_compute. repeat split; try reflexivity. discriminate.
  - apply (H4 (mk_referral (Some 2004) "carol" "pending" None "2025-M01")).
    + vm_compute. reflexivity.
    + left. vm_compute. discriminate.
Defined.

(** ** C7: self-referral *)

(** C7. Opening a referral link whose referrer is the visitor is rejected
    for both link kinds and writes nothing: the ambassador link answers
    "invalid link" when the visitor is no ambassador and "own link" when
    they are, the contest link always answers "own link", and the store,
    hence the users and referrals tables, is unchanged. *)
Theorem self_referral_rejected
    (c : clock) (user_id : Z) (name : option string) (d : db) :
  sqlite_int user_id = true →
  let amb := start c user_id name (amb_ (Some user_id)) d in
  let ref := start c user_id name (ref_ (Some user_id)) d in
  amb.1 = d ∧ validation_error amb.2
  ∧ (is_Some (ambassadors d !! user_id) → amb.2 = own_referral_link)
  ∧ ref.1 = d ∧ ref.2 = own_referral_link
  ∧ users amb.1 = users d ∧ referrals amb.1 = referrals d
  ∧ users ref.1 = users d ∧ referrals ref.1 = referrals d.
Proof.
  intros Hu amb ref. subst amb ref. unfold start, start_body.
  unfold parse_int, bind, ret, bind_param. rewrite Hu. unfold catch.
  destruct (decide (user_id = user_id)) as [_|Hne]; [|done].
  destruct (ambassadors d !! user_id) as [a|] eqn:Ha; cbn [fst snd].
  - repeat split; try reflexivity. by right.
  - repeat split; try reflexivity; [by left|]. intros [a Hsome]. discriminate Hsome.
Qed.

Lemma self_referral_rejected_witness :
  start jan20 1001 (Some "alice") (amb_ (Some 1001)) ambassador_pending_db
    = (ambassador_pending_db, own_referral_link)
  ∧ start jan20 1001 (Some "alice") (ref_ (Some 1001)) ambassador_pending_db
    = (ambassador_pending_db, own_referral_link).
Proof.
  pose proof (self_referral_rejected jan20 1001 (Some "alice") ambassador_pending_db
                eq_refl) as H.
  cbv zeta in H. destruct H as (H1 & _ & H3 & H4 & H5 & _).
  assert (H2 : (start jan20 1001 (Some "alice") (amb_ (Some 1001))
                  ambassador_pending_db).2 = own_referral_link).
  { apply H3. exists (mk_ambassador "alice" 0 1736935200). vm_compute. reflexivity. }
  split; apply injective_projections; cbn [fst snd].
  - exact H1.
  - exact H2.
  - exact H4.
  - exact H5.
Defined.

(** ** C8: registering twice *)

(** When [start] adds a users row through an ambassador link, it took the
    INSERT branch: the referrer is an ambassador other than the visitor. *)
Lemma start_amb_created c B A name d :
  users d !! B = None →
  is_Some (users (start c B name (amb_ (Some A)) d).1 !! B) →
  sqlite_int A = true ∧ sqlite_int B = true ∧ A ≠ B
  ∧ ∃ a, ambassadors d !! A = Some a
     ∧ start c B name (amb_ (Some A)) d =
         (set_users (insert B (mk_user (Some A) "pending" (current_timestamp c))) d,
          show_ambassador_tasks A (amb_username a)).
Proof.
  intros Hnone. unfold start, start_body. handler_steps.
  destruct (sqlite_int A); handler_steps;
    [|intros [u Hu]; rewrite Hnone in Hu; discriminate Hu].
  destruct (ambassadors d !! A) as [a|]; handler_steps;
    [|intros [u Hu]; rewrite Hnone in Hu; discriminate Hu].
  destruct (decide (A = B)) as [Heq|Hne]; handler_steps;
    [intros [u Hu]; rewrite Hnone in Hu; discriminate Hu|].
  destruct (sqlite_int B); handler_steps;
    [|intros [u Hu]; rewrite Hnone in Hu; discriminate Hu].
  rewrite Hnone. intros _. repeat split; try done. by exists a.
Qed.

(** C8. If opening A's ambassador link created B's relationship, the row is
    pending under A, and opening the same link again changes nothing in the
    store (same rows, same count, same status and referrer) and again shows
    the tasks instead of an error. *)
Theorem register_referral_idempotent
    (c1 c2 : clock) (B A : Z) (name1 name2 : option string) (d : db) :
  users d !! B = None →
  let first := start c1 B name1 (amb_ (Some A)) d in
  is_Some (users first.1 !! B) →
  let second := start c2 B name2 (amb_ (Some A)) first.1 in
  users first.1 !! B = Some (mk_user (Some A) "pending" (current_timestamp c1))
  ∧ second.1 = first.1
  ∧ size (users second.1) = size (users first.1)
  ∧ users second.1 !! B = Some (mk_user (Some A) "pending" (current_timestamp c1))
  ∧ second.2 = first.2
  ∧ ∃ shown, second.2 = show_ambassador_tasks A shown.
Proof.
  intros Hnone first Hcreated second.
  destruct (start_amb_created c1 B A name1 d Hnone Hcreated)
    as (HA & HB & Hne & a & Ha & Hfirst).
  assert (Hrow : users first.1 !! B
                 = Some (mk_user (Some A) "pending" (current_timestamp c1))).
  { subst first. rewrite Hfirst. cbn [fst set_users users]. apply lookup_insert_eq. }
  assert (Hamb : ambassadors first.1 !! A = Some a).
  { subst first. rewrite Hfirst. exact Ha. }
  assert (Hsecond : second = (first.1, show_ambassador_tasks A (amb_username a))).
  { subst second. unfold start, start_body.
    unfold parse_int, bind, ret, bind_param. rewrite HA. rewrite Hamb.
    destruct (decide (A = B)) as [|_]; [done|]. rewrite HB, Hrow.
    unfold catch. cbn [user_status].
    destruct (decide ("pending" = "completed")) as [Hbad|_]; [discriminate Hbad|].
    reflexivity. }
  rewrite Hsecond. cbn [fst snd].
  split; [exact Hrow|]. split; [reflexivity|]. split; [reflexivity|].
  split; [exact Hrow|].
  split; [by subst first; rewrite Hfirst|]. by eexists.
Qed.

Lemma register_referral_idempotent_witness :
  let d := (become_ambassador jan15 false 1001 (Some "alice") empty_db).1 in
  let first := start jan15 1002 (Some "bob") (amb_ (Some 1001)) d in
  let second := start jan20 1002 (Some "bob") (amb_ (Some 1001)) first.1 in
  users d !! 1002 = None
  ∧ users first.1 !! 1002 = Some (mk_user (Some 1001) "pending" 1736935200)
  ∧ second.1 = first.1
  ∧ second.2 = show_ambassador_tasks 1001 "alice".
Proof.
  pose proof (register_referral_idempotent jan15 jan20 1002 1001 (Some "bob") (Some "bob")
                (become_ambassador jan15 false 1001 (Some "alice") empty_db).1
                eq_refl) as H.
  cbv zeta in H.
  destruct H as (H1 & H2 & _ & _ & _ & _).
  { eexists. vm_compute. reflexivity. }
  cbv zeta. split; [vm_compute; reflexivity|]. split; [exact H1|].
  split; [exact H2|]. vm_compute. reflexivity.
Defined.

(** ** C9: ambassador points *)

Lemma start_keeps_ambassadors c user_id name arg d :
  ambassadors (start c user_id name arg d).1 = ambassadors d.
Proof.
  unfold start, start_body. destruct arg as [[A|]|[A|]|]; handler_steps; try reflexivity.
  - destruct (sqlite_int A); handler_steps; [|reflexivity].
    destruct (ambassadors d !! A); handler_steps; [|reflexivity].
    destruct (decide (A = user_id)); handler_steps; [reflexivity|].
    destruct (sqlite_int user_id); handler_steps; [|reflexivity].
    destruct (users d !! user_id) as [u|]; handler_steps; [|reflexivity].
    destruct (decide (user_status u = "completed")); reflexivity.
  - destruct (decide (A = user_id)); handler_steps; [reflexivity|].
    destruct (sqlite_int A); handler_steps; [|reflexivity].
    destruct (sqlite_int user_id); handler_steps; [|reflexivity].
    destruct (referrals d !! user_id) as [r|]; handler_steps; [|reflexivity].
    destruct (decide (period r = (get_current_period (now c)).2)); handler_steps;
      [|reflexivity].
    destruct (decide (ref_status r = "completed")); reflexivity.
Qed.

Lemma become_ambassador_change c via user_id name d :
  ambassadors_change (ambassadors d)
    (ambassadors (become_ambassador c via user_id name d).1)
    (become_ambassador c via user_id name d).2.
Proof.
  unfold become_ambassador. handler_steps.
  destruct (sqlite_int user_id); handler_steps; [|by apply change_none].
  destruct (ambassadors d !! user_id) as [a|] eqn:Ha; handler_steps;
    [by apply change_none|].
  eapply change_registered; [exact Ha| |reflexivity]. reflexivity.
Qed.

Lemma get_referral_link_keeps_ambassadors c user_id name d :
  ambassadors (get_referral_link c user_id name d).1 = ambassadors d.
Proof.
  unfold get_referral_link. handler_steps.
  destruct (sqlite_int user_id); handler_steps; [|reflexivity].
  destruct (referrals d !! user_id); reflexivity.
Qed.

Lemma button_change c user_id name data d :
  ambassadors_change (ambassadors d)
    (ambassadors (button c user_id name data d).1)
    (button c user_id name data d).2.
Proof.
  destruct data as [[A|]|[A|]| | | | |]; unfold button; handler_steps;
    try (by apply change_none).
  - destruct (sqlite_int user_id); handler_steps; [|by apply change_none].
    destruct (sqlite_int A); handler_steps; [|by apply change_none].
    destruct (users d !! user_id) as [u|]; handler_steps; [|by apply change_none].
    destruct (decide (referrer u = Some A)); handler_steps; [|by apply change_none].
    destruct (decide (user_status u ≠ "completed")); handler_steps;
      [|by apply change_none].
    by eapply change_credited.
  - destruct (sqlite_int user_id); handler_steps; [|by apply change_none].
    destruct (referrals d !! user_id) as [r|]; handler_steps; [|by apply change_none].
    destruct (decide (period r = (get_current_period (now c)).2)); handler_steps;
      [|by apply change_none].
    destruct (decide (ref_status r ≠ "completed")); by apply change_none.
  - apply become_ambassador_change.
  - apply change_none, get_referral_link_keeps_ambassadors.
Qed.

(** Every update but the confirmed full reset changes the ambassadors table
    in one of three ways: not at all, by a new row with 0 points, or by one
    credit of POINTS_PER_REFERRAL that comes with "tasks completed". *)
Lemma dispatch_change c u d :
  ¬ is_full_reset u →
  ambassadors_change (ambassadors d) (ambassadors (dispatch c u d).1) (dispatch c u d).2.
Proof.
  intros Hnot. destruct u as [user_id name arg|user_id name|user_id name
    |chat_type chat_id user_id name|user_id name data|user_id|user_id confirm|user_id];
    cbn [dispatch].
  - apply change_none, start_keeps_ambassadors.
  - apply become_ambassador_change.
  - apply change_none, get_referral_link_keeps_ambassadors.
  - apply change_none. unfold track_engagement.
    destruct (decide (chat_type ≠ "group" ∧ chat_type ≠ "supergroup")); [reflexivity|].
    destruct (decide (GROUP_CHAT_ID ≠ 0 ∧ chat_id ≠ GROUP_CHAT_ID)); [reflexivity|].
    handler_steps. destruct (sqlite_int user_id); reflexivity.
  - apply button_change.
  - apply change_none. unfold reset_weekly_engagement.
    destruct (decide (user_id ∉ ADMIN_IDS)); reflexivity.
  - apply change_none. unfold confirm_reset_handler.
    destruct (decide (user_id ∉ ADMIN_IDS)); [reflexivity|].
    destruct confirm; [by destruct Hnot|reflexivity].
  - by apply change_none.
Qed.

Lemma change_monotone before after rep a r :
  ambassadors_change before after rep → before !! a = Some r →
  ∃ r', after !! a = Some r'
        ∧ (points r' = points r
           ∨ (points r' = points r + POINTS_PER_REFERRAL
              ∧ rep = tasks_completed_ambassador)).
Proof.
  intros [Hsame|user_id row Hfresh Hzero Hins|A Hrep Halter] Hr.
  - exists r. rewrite Hsame. by split; [|left].
  - exists r. rewrite Hins, lookup_insert_ne; [by split; [|left]|].
    intros ->. rewrite Hfresh in Hr. discriminate Hr.
  - rewrite Halter. destruct (decide (A = a)) as [->|Hne].
    + exists (add_points POINTS_PER_REFERRAL r).
      rewrite lookup_alter_eq, Hr. split; [reflexivity|]. by right.
    + exists r. rewrite lookup_alter_ne by done. by split; [|left].
Qed.

Lemma change_keeps_nonnegative before after rep :
  ambassadors_change before after rep →
  (∀ a r, before !! a = Some r → 0 ≤ points r) →
  ∀ a r, after !! a = Some r → 0 ≤ points r.
Proof.
  intros [Hsame|user_id row Hfresh Hzero Hins|A Hrep Halter] Hinv a r Hr.
  - rewrite Hsame in Hr. eauto.
  - rewrite Hins in Hr. destruct (decide (user_id = a)) as [->|Hne].
    + rewrite lookup_insert_eq in Hr. inversion Hr; subst. lia.
    + rewrite lookup_insert_ne in Hr by done. eauto.
  - rewrite Halter in Hr. destruct (decide (A = a)) as [->|Hne].
    + rewrite lookup_alter_eq in Hr.
      destruct (before !! a) as [r0|] eqn:H0; [|discriminate Hr].
      inversion Hr; subst. cbn. specialize (Hinv a r0 H0).
      unfold POINTS_PER_REFERRAL. lia.
    + rewrite lookup_alter_ne in Hr by done. eauto.
Qed.

Lemma reachable_points_nonnegative d :
  reachable d → ∀ a r, ambassadors d !! a = Some r → 0 ≤ points r.
Proof.
  induction 1 as [|c u d Hreach IH].
  - intros a r Hr. cbn in Hr. rewrite lookup_empty in Hr. discriminate Hr.
  - destruct u as [user_id name arg|user_id name|user_id name
      |chat_type chat_id user_id name|user_id name data|user_id|user_id [|]|user_id].
    7:{ cbn [dispatch]. unfold confirm_reset_handler.
        destruct (decide (user_id ∉ ADMIN_IDS)); cbn [fst]; [exact IH|].
        intros a r Hr. cbn in Hr. rewrite lookup_empty in Hr. discriminate Hr. }
    all: eapply change_keeps_nonnegative; [|exact IH];
      apply dispatch_change; cbn; tauto.
Qed.

(** C9. In every store the bot can reach, each ambassador's points are
    non-negative; an update other than the confirmed full reset keeps every
    ambassador and never lowers their points: the points stay, or grow by
    POINTS_PER_REFERRAL together with a "tasks completed" answer; and
    registering a new ambassador creates the row with 0 points. *)
Theorem ambassador_points_monotone (d : db) :
  reachable d →
  (∀ a r, ambassadors d !! a = Some r → 0 ≤ points r)
  ∧ (∀ c u a r, ¬ is_full_reset u → ambassadors d !! a = Some r →
       ∃ r', ambassadors (dispatch c u d).1 !! a = Some r'
             ∧ points r ≤ points r'
             ∧ (points r' = points r
                ∨ (points r' = points r + POINTS_PER_REFERRAL
                   ∧ (dispatch c u d).2 = tasks_completed_ambassador)))
  ∧ (∀ c via user_id name,
       sqlite_int user_id = true → ambassadors d !! user_id = None →
       ∃ r, ambassadors (become_ambassador c via user_id name d).1 !! user_id = Some r
            ∧ points r = 0).
Proof.
  intros Hreach. split; [by apply reachable_points_nonnegative|]. split.
  - intros c u a r Hnot Hr.
    destruct (change_monotone _ _ _ a r (dispatch_change c u d Hnot) Hr)
      as (r' & Hr' & Hcase).
    exists r'. split; [exact Hr'|]. split; [|exact Hcase].
    unfold POINTS_PER_REFERRAL in Hcase. lia.
  - intros c via user_id name Hint Hnone. unfold become_ambassador. handler_steps.
    rewrite Hint. handler_steps. rewrite Hnone. handler_steps.
    eexists. cbn [ambassadors set_ambassadors]. rewrite lookup_insert_eq.
    split; reflexivity.
Qed.

Lemma ambassador_points_monotone_witness :
  let d := ambassador_pending_db in
  let click := button_pressed 1002 (Some "bob") (amb_done_ (Some 1001)) in
  ∃ r', ambassadors (dispatch jan20 click d).1 !! 1001 = Some r'
        ∧ 0 ≤ points r'
        ∧ (dispatch jan20 click d).2 = tasks_completed_ambassador.
Proof.
  assert (Hreach : reachable ambassador_pending_db).
  { unfold ambassador_pending_db. cbn [run]. do 2 apply reachable_step.
    apply reachable_init. }
  destruct (ambassador_points_monotone ambassador_pending_db Hreach) as (Hpos & Hstep & _).
  destruct (Hstep jan20 (button_pressed 1002 (Some "bob") (amb_done_ (Some 1001)))
              1001 (mk_ambassador "alice" 0 1736935200)) as (r' & Hr' & Hle & _).
  { cbn. tauto. }
  { vm_compute. reflexivity. }
  exists r'. split; [exact Hr'|]. split; [cbn in Hle; lia|].
  vm_compute. reflexivity.
Defined.

(** ** C10: the owner of a contest link cannot be referred that month *)









(** * Further properties of the handlers *)

(** ** Counting rows that satisfy a condition *)

Section counting.
Context {A : Type} (P : Z * A → Prop) `{!∀ kv, Decision (P kv)}.

Lemma count_alter_gain (m : gmap Z A) i x f :
  m !! i = Some x → ¬ P (i, x) → P (i, f x) →
  size (filter P (alter f i m)) = S (size (filter P m)).
Proof.
  intros Hx Hno Hyes. rewrite (alter_alt_Some f m i x Hx).
  rewrite map_filter_insert_True by done.
  apply map_size_insert_None. apply map_lookup_filter_None. right.
  intros y Hy. rewrite Hx in Hy. by inversion Hy; subst.
Qed.

Lemma count_alter_same (m : gmap Z A) i f :
  (∀ x, m !! i = Some x → (P (i, x) ↔ P (i, f x))) →
  size (filter P (alter f i m)) = size (filter P m).
Proof.
  intros Hiff. destruct (m !! i) as [x|] eqn:Hx.
  - rewrite (alter_alt_Some f m i x Hx).
    destruct (decide (P (i, x))) as [Hp|Hp].
    + rewrite map_filter_insert_True by (by apply (Hiff x eq_refl)).
      rewrite map_size_insert_Some; [done|].
      exists x. by apply map_lookup_filter_Some.
    + rewrite map_filter_insert_not'; [done| |].
      * intros Hfx. by apply Hp, (Hiff x eq_refl).
      * intros y Hy. rewrite Hx in Hy. by inversion Hy; subst.
  - by rewrite alter_alt, Hx.
Qed.

Lemma count_insert_skip (m : gmap Z A) i x :
  ¬ P (i, x) → (∀ y, m !! i = Some y → ¬ P (i, y)) →
  size (filter P (<[i:=x]> m)) = size (filter P m).
Proof. intros Hno Hold. by rewrite map_filter_insert_not'. Qed.
End counting.

(** ** Contest completion *)

(** X1. A pending contest row of C under D in the current month: the first
    "Done!" click marks it completed with [completed_at] set and raises D's
    completed count of the month by one, whatever referrer the button
    names; the count of any other referrer stays; a second click in the
    same month answers "Already completed!" and writes nothing. *)
Theorem contest_completion_counts_once
    (c1 c2 : clock) (C D X Y : Z) (name1 name2 : option string) (d : db) (r : referral) :
  sqlite_int C = true →
  referrals d !! C = Some r → referrer_id r = Some D → ref_status r = "pending" →
  period r = (get_current_period (now c1)).2 →
  (get_current_period (now c2)).2 = (get_current_period (now c1)).2 →
  let month := (get_current_period (now c1)).2 in
  let first := button c1 C name1 (ref_done_ (Some X)) d in
  let second := button c2 C name2 (ref_done_ (Some Y)) first.1 in
  first.2 = tasks_completed_referral
  ∧ referrals first.1 !! C =
      Some (mk_referral (Some D) (ref_username r) "completed"
              (Some (current_timestamp c1)) month)
  ∧ (∀ i, i ≠ C → referrals first.1 !! i = referrals d !! i)
  ∧ referral_count first.1 D month = S (referral_count d D month)
  ∧ (∀ E, E ≠ D → referral_count first.1 E month = referral_count d E month)
  ∧ ambassadors first.1 = ambassadors d
  ∧ second = (first.1, already_completed).
Proof.
  intros HC Hr Href Hst Hper Hmonth month first second.
  assert (Hfirst : first =
    (set_referrals (alter (complete_referral (current_timestamp c1)) C) d,
     tasks_completed_referral)).
  { subst first. unfold button. handler_steps. rewrite HC. handler_steps.
    rewrite Hr. destruct (decide (period r = (get_current_period (now c1)).2));
      [|done]. handler_steps.
    destruct (decide (ref_status r ≠ "completed")) as [_|Hbad]; [reflexivity|].
    exfalso. apply Hbad. rewrite Hst. discriminate. }
  assert (Hrow : referrals first.1 !! C =
      Some (mk_referral (Some D) (ref_username r) "completed"
              (Some (current_timestamp c1)) month)).
  { rewrite Hfirst. cbn [fst referrals set_referrals].
    rewrite lookup_alter_eq, Hr. cbn. unfold complete_referral.
    by rewrite Href, Hper. }
  split; [by rewrite Hfirst|]. split; [exact Hrow|]. split.
  { intros i Hi. rewrite Hfirst. cbn [fst referrals set_referrals].
    by rewrite lookup_alter_ne. }
  split.
  { rewrite Hfirst. unfold referral_count. cbn [fst referrals set_referrals].
    apply (count_alter_gain _ _ C r); [exact Hr| |].
    - cbn. intros (_ & Hs & _). rewrite Hst in Hs. discriminate Hs.
    - cbn. by rewrite Href, Hper. }
  split.
  { intros E HE. rewrite Hfirst. unfold referral_count.
    cbn [fst referrals set_referrals]. apply count_alter_same.
    intros x Hx. rewrite Hr in Hx. inversion Hx; subst x. cbn.
    rewrite Href. split; intros (Hbad & _); inversion Hbad; by subst. }
  split; [by rewrite Hfirst|].
  subst second. unfold button. handler_steps. rewrite HC. handler_steps.
  rewrite Hrow, Hmonth. cbn [period]. fold month.
  destruct (decide (month = month)); [|done]. handler_steps. cbn [ref_status].
  destruct (decide ("completed" ≠ "completed")); [done|reflexivity].
Qed.

Lemma contest_completion_counts_once_witness :
  let d := (start jan15 2003 (Some "carol") (ref_ (Some 2004)) empty_db).1 in
  let first := button jan15 2003 (Some "carol") (ref_done_ (Some 9999)) d in
  first.2 = tasks_completed_referral
  ∧ referral_count first.1 2004 "2025-M01" = 1%nat
  ∧ referral_count first.1 9999 "2025-M01" = 0%nat
  ∧ button jan20 2003 (Some "carol") (ref_done_ (Some 2004)) first.1
    = (first.1, already_completed).
Proof.
  pose proof (contest_completion_counts_once jan15 jan20 2003 2004 9999 2004
                (Some "carol") (Some "carol")
                (start jan15 2003 (Some "carol") (ref_ (Some 2004)) empty_db).1
                (mk_referral (Some 2004) "carol" "pending" None "2025-M01")
                eq_refl eq_refl eq_refl eq_refl eq_refl eq_refl) as H.
  cbv zeta in H. destruct H as (H1 & _ & _ & H4 & H5 & _ & H7).
  cbv zeta. split; [exact H1|]. split; [|split; [|exact H7]].
  - etransitivity; [exact H4|]. vm_compute. reflexivity.
  - etransitivity; [apply H5; discriminate|]. vm_compute. reflexivity.
Defined.

(** ** Ambassador attribution is first come, first served *)

(** X2. Once B has a users row under ambassador A, opening the link of a
    different ambassador A2 writes nothing: the row keeps referrer A, the
    tasks are shown with A2's button (or "already completed"), and a click
    on that button answers "Already completed!" without crediting A2 or
    anybody else. *)
Theorem second_ambassador_cannot_take_over
    (c1 c2 : clock) (B A A2 : Z) (name1 name2 : option string) (d : db)
    (u : user) (a2 : ambassador) :
  sqlite_int B = true → sqlite_int A2 = true → A2 ≠ B → A2 ≠ A →
  users d !! B = Some u → referrer u = Some A →
  ambassadors d !! A2 = Some a2 →
  let opened := start c1 B name1 (amb_ (Some A2)) d in
  let clicked := button c2 B name2 (amb_done_ (Some A2)) opened.1 in
  opened.1 = d
  ∧ opened.2 = (if decide (user_status u = "completed") then ambassador_tasks_done
                else show_ambassador_tasks A2 (amb_username a2))
  ∧ clicked = (d, already_completed).
Proof.
  intros HB HA2 Hne Hother Hu Href Ha2 opened clicked.
  assert (Hopened : opened =
    (d, if decide (user_status u = "completed") then ambassador_tasks_done
        else show_ambassador_tasks A2 (amb_username a2))).
  { subst opened. unfold start, start_body. handler_steps. rewrite HA2.
    handler_steps. rewrite Ha2. destruct (decide (A2 = B)); [done|].
    rewrite HB. handler_steps. rewrite Hu.
    destruct (decide (user_status u = "completed")); reflexivity. }
  subst clicked. rewrite Hopened. cbn [fst snd].
  split; [reflexivity|]. split; [reflexivity|].
  unfold button. handler_steps. rewrite HB. handler_steps. rewrite HA2.
  handler_steps. rewrite Hu.
  destruct (decide (referrer u = Some A2)) as [Heq|_]; [|reflexivity].
  rewrite Href in Heq. inversion Heq. by subst.
Qed.

Lemma second_ambassador_cannot_take_over_witness :
  let d := (become_ambassador jan15 false 1003 (Some "erin") ambassador_pending_db).1 in
  start jan20 1002 (Some "bob") (amb_ (Some 1003)) d = (d, show_ambassador_tasks 1003 "erin")
  ∧ button jan20 1002 (Some "bob") (amb_done_ (Some 1003)) d = (d, already_completed).
Proof.
  pose proof (second_ambassador_cannot_take_over jan20 jan20 1002 1001 1003
                (Some "bob") (Some "bob")
                (become_ambassador jan15 false 1003 (Some "erin") ambassador_pending_db).1
                (mk_user (Some 1001) "pending" 1736935200)
                (mk_ambassador "erin" 0 1736935200)
                eq_refl eq_refl) as H.
  cbv zeta in H.
  destruct H as (H1 & H2 & H3); try discriminate; try reflexivity.
  cbv zeta. split.
  - apply injective_projections; [exact H1|exact H2].
  - rewrite H1 in H3. exact H3.
Defined.

(** ** Engagement tracking *)

Lemma upsert_keys user_id name stamp week rows :
  engagement_key <$> upsert_engagement user_id name stamp week rows =
    if decide ((user_id, week) ∈ engagement_key <$> rows)
    then engagement_key <$> rows
    else (engagement_key <$> rows) ++ [(user_id, week)].
Proof.
  induction rows as [|e rows IH]; cbn [upsert_engagement fmap list_fmap].
  - rewrite decide_False; [reflexivity|]. apply not_elem_of_nil.
  - destruct (decide (eng_user_id e = user_id ∧ eng_period e = week)) as [[H1 H2]|Hne].
    + rewrite decide_True.
      * cbn [fmap list_fmap]. unfold engagement_key at 1 3. cbn. by rewrite H1, H2.
      * apply elem_of_cons. left. unfold engagement_key. by rewrite H1, H2.
    + cbn [fmap list_fmap]. fold (@fmap list _ _ _ engagement_key rows) in *.
      change (list_fmap _ _ engagement_key ?l) with (engagement_key <$> l) in *.
      rewrite IH.
      destruct (decide ((user_id, week) ∈ engagement_key <$> rows)) as [Hin|Hnin].
      * rewrite decide_True; [reflexivity|]. apply elem_of_cons. by right.
      * rewrite decide_False; [reflexivity|].
        intros [Heq|Hin]%elem_of_cons; [|done].
        apply Hne. unfold engagement_key in Heq. by inversion Heq.
Qed.

Lemma upsert_lookup_self user_id name stamp week rows :
  head (filter (λ e, eng_user_id e = user_id ∧ eng_period e = week)
          (upsert_engagement user_id name stamp week rows)) =
    Some (mk_engagement user_id name
            (match head (filter (λ e, eng_user_id e = user_id ∧ eng_period e = week) rows)
             with Some e => message_count e + 1 | None => 1 end)
            stamp week).
Proof.
  induction rows as [|r rows IH]; cbn [upsert_engagement].
  - rewrite filter_cons_True by done. reflexivity.
  - destruct (decide (eng_user_id r = user_id ∧ eng_period r = week)) as [Hk|Hk].
    + rewrite filter_cons_True by done. by rewrite (filter_cons_True _ r) by done.
    + rewrite !filter_cons_False by done. exact IH.
Qed.

Lemma upsert_lookup_other user_id name stamp week rows user' week' :
  ¬ (user' = user_id ∧ week' = week) →
  filter (λ e, eng_user_id e = user' ∧ eng_period e = week')
    (upsert_engagement user_id name stamp week rows) =
  filter (λ e, eng_user_id e = user' ∧ eng_period e = week') rows.
Proof.
  intros Hne. induction rows as [|r rows IH]; cbn [upsert_engagement].
  - rewrite filter_cons_False; [reflexivity|]. cbn. intros [<- <-]. by apply Hne.
  - destruct (decide (eng_user_id r = user_id ∧ eng_period r = week)) as [[H1 H2]|Hk].
    + rewrite !filter_cons_False; [reflexivity| |].
      * rewrite H1, H2. intros [<- <-]. by apply Hne.
      * cbn. intros [<- <-]. by apply Hne.
    + rewrite !filter_cons. destruct (decide _); by rewrite IH.
Qed.

Lemma upsert_total user_id name stamp week rows week' :
  total_messages week' (upsert_engagement user_id name stamp week rows) =
    total_messages week' rows + (if decide (week' = week) then 1 else 0).
Proof.
  unfold total_messages.
  induction rows as [|r rows IH]; cbn [upsert_engagement].
  - rewrite filter_cons. cbn [eng_period].
    destruct (decide (week = week')) as [->|Hne].
    + rewrite decide_True by done. cbn. lia.
    + rewrite decide_False by done. cbn. lia.
  - destruct (decide (eng_user_id r = user_id ∧ eng_period r = week)) as [[H1 H2]|Hk].
    + rewrite !filter_cons. cbn [eng_period]. rewrite H2.
      destruct (decide (week = week')) as [->|Hne].
      * rewrite decide_True by done. cbn. lia.
      * rewrite decide_False by done. lia.
    + rewrite !filter_cons. destruct (decide (eng_period r = week')); cbn; rewrite IH; lia.
Qed.

Lemma track_engagement_tracked c chat_type chat_id user_id name d :
  tracked_chat chat_type chat_id → sqlite_int user_id = true →
  track_engagement c chat_type chat_id user_id name d =
    (mk_db (ambassadors d) (users d) (referrals d)
       (upsert_engagement user_id (display_name "User" user_id name)
          (current_timestamp c) (get_current_period (now c)).1 (engagement d))
       (winners d), no_reply).
Proof.
  intros [Htype ->] Hint. unfold track_engagement.
  destruct (decide (chat_type ≠ "group" ∧ chat_type ≠ "supergroup")) as [[H1 H2]|_];
    [by destruct Htype|].
  destruct (decide (GROUP_CHAT_ID ≠ 0 ∧ GROUP_CHAT_ID ≠ GROUP_CHAT_ID)) as [[_ H]|_];
    [done|].
  handler_steps. rewrite Hint. reflexivity.
Qed.

(** X3. A message in the tracked group adds one to the sender's row of the
    current week, creating it with count 1 if there is none, and stores the
    sender's current display name and the time; the rows of every other
    user or week read as before, and no other table changes. *)
Theorem tracked_message_counts_one
    (c : clock) (chat_type : string) (chat_id user_id : Z) (name : option string) (d : db) :
  tracked_chat chat_type chat_id → sqlite_int user_id = true →
  let week := (get_current_period (now c)).1 in
  let d' := (track_engagement c chat_type chat_id user_id name d).1 in
  engagement_of d' user_id week =
    Some (mk_engagement user_id (display_name "User" user_id name)
            (match engagement_of d user_id week with
             | Some e => message_count e + 1
             | None => 1
             end)
            (current_timestamp c) week)
  ∧ (∀ user' week', ¬ (user' = user_id ∧ week' = week) →
       engagement_of d' user' week' = engagement_of d user' week')
  ∧ ambassadors d' = ambassadors d ∧ users d' = users d
  ∧ referrals d' = referrals d ∧ winners d' = winners d.
Proof.
  intros Hchat Hint week d'. subst d'.
  rewrite (track_engagement_tracked _ _ _ _ _ _ Hchat Hint). cbn [fst].
  unfold engagement_of. cbn [engagement ambassadors users referrals winners].
  split; [apply upsert_lookup_self|]. split; [|done].
  intros user' week' Hne. by rewrite upsert_lookup_other.
Qed.

Lemma tracked_message_counts_one_witness :
  let d' := (track_engagement jan15 "supergroup" GROUP_CHAT_ID 3001 (Some "david")
               engagement_db).1 in
  engagement_of engagement_db 3001 "2025-W03"
    = Some (mk_engagement 3001 "dave" 2 1736935200 "2025-W03")
  ∧ engagement_of d' 3001 "2025-W03"
    = Some (mk_engagement 3001 "david" 3 1736935200 "2025-W03")
  ∧ engagement_of d' 3002 "2025-W03" = engagement_of engagement_db 3002 "2025-W03".
Proof.
  assert (Hchat : tracked_chat "supergroup" GROUP_CHAT_ID) by (split; [by right|done]).
  pose proof (tracked_message_counts_one jan15 "supergroup" GROUP_CHAT_ID 3001
                (Some "david") engagement_db Hchat eq_refl) as H.
  cbv zeta in H. destruct H as (H1 & H2 & _).
  cbv zeta. split; [vm_compute; reflexivity|]. split.
  - etransitivity; [exact H1|]. vm_compute. reflexivity.
  - apply H2. intros [Hbad _]. discriminate Hbad.
Defined.

(** X4. Every message outside the tracked group is ignored: a private chat
    or channel, or a group with another id, leaves the store as it is and
    sends nothing. *)
Theorem untracked_message_ignored
    (c : clock) (chat_type : string) (chat_id user_id : Z) (name : option string) (d : db) :
  ¬ tracked_chat chat_type chat_id →
  track_engagement c chat_type chat_id user_id name d = (d, no_reply).
Proof.
  intros Hno. unfold track_engagement.
  destruct (decide (chat_type ≠ "group" ∧ chat_type ≠ "supergroup")) as [|Htype];
    [reflexivity|].
  destruct (decide (GROUP_CHAT_ID ≠ 0 ∧ chat_id ≠ GROUP_CHAT_ID)) as [|Hid];
    [reflexivity|].
  exfalso. apply Hno. split.
  - destruct (decide (chat_type = "group")); [by left|].
    destruct (decide (chat_type = "supergroup")); [by right|]. by destruct Htype.
  - destruct (decide (chat_id = GROUP_CHAT_ID)); [done|].
    exfalso. apply Hid. split; [discriminate|done].
Qed.

Lemma untracked_message_ignored_witness :
  track_engagement jan15 "private" 3001 3001 (Some "dave") engagement_db
    = (engagement_db, no_reply)
  ∧ track_engagement jan15 "supergroup" (-1001234567890) 3001 (Some "dave") engagement_db
    = (engagement_db, no_reply).
Proof.
  split.
  - apply (untracked_message_ignored jan15 "private" 3001 3001 (Some "dave") engagement_db).
    intros [[H|H] _]; discriminate H.
  - apply (untracked_message_ignored jan15 "supergroup" (-1001234567890) 3001
             (Some "dave") engagement_db).
    intros [_ H]. discriminate H.
Defined.

(** X5. A tracked message raises the message total of its week by exactly
    one and leaves the total of every other week alone. *)
Theorem tracked_message_raises_total
    (c : clock) (chat_type : string) (chat_id user_id : Z) (name : option string)
    (d : db) (week' : string) :
  tracked_chat chat_type chat_id → sqlite_int user_id = true →
  let week := (get_current_period (now c)).1 in
  let d' := (track_engagement c chat_type chat_id user_id name d).1 in
  total_messages week' (engagement d') =
    total_messages week' (engagement d) + (if decide (week' = week) then 1 else 0).
Proof.
  intros Hchat Hint week d'. subst d'.
  rewrite (track_engagement_tracked _ _ _ _ _ _ Hchat Hint). cbn [fst engagement].
  apply upsert_total.
Qed.

Lemma tracked_message_raises_total_witness :
  let d' := (track_engagement jan15 "group" GROUP_CHAT_ID 3003 None engagement_db).1 in
  total_messages "2025-W03" (engagement engagement_db) = 3
  ∧ total_messages "2025-W03" (engagement d') = 4
  ∧ total_messages "2025-W04" (engagement d') = 1.
Proof.
  assert (Hchat : tracked_chat "group" GROUP_CHAT_ID) by (split; [by left|done]).
  pose proof (tracked_message_raises_total jan15 "group" GROUP_CHAT_ID 3003 None
                engagement_db "2025-W03" Hchat eq_refl) as H3.
  pose proof (tracked_message_raises_total jan15 "group" GROUP_CHAT_ID 3003 None
                engagement_db "2025-W04" Hchat eq_refl) as H4.
  cbv zeta in H3, H4. cbv zeta.
  split; [vm_compute; reflexivity|]. split.
  - etransitivity; [exact H3|]. vm_compute. reflexivity.
  - etransitivity; [exact H4|]. vm_compute. reflexivity.
Defined.

(** What one update can do to the engagement table. *)
Lemma dispatch_engagement c u d :
  engagement (dispatch c u d).1 = engagement d
  ∨ (∃ user_id name stamp week,
       engagement (dispatch c u d).1 =
         upsert_engagement user_id name stamp week (engagement d))
  ∨ (∃ week, engagement (dispatch c u d).1 =
       filter (λ e, eng_period e ≠ week) (engagement d))
  ∨ engagement (dispatch c u d).1 = [].
Proof.
  destruct u as [user_id name arg|user_id name|user_id name
    |chat_type chat_id user_id name|user_id name data|user_id|user_id confirm|user_id];
    cbn [dispatch].
  - left. unfold start, start_body.
    destruct arg as [[A|]|[A|]|]; handler_steps; try reflexivity.
    + destruct (sqlite_int A); handler_steps; [|reflexivity].
      destruct (ambassadors d !! A); handler_steps; [|reflexivity].
      destruct (decide (A = user_id)); handler_steps; [reflexivity|].
      destruct (sqlite_int user_id); handler_steps; [|reflexivity].
      destruct (users d !! user_id) as [u|]; handler_steps; [|reflexivity].
      destruct (decide (user_status u = "completed")); reflexivity.
    + destruct (decide (A = user_id)); handler_steps; [reflexivity|].
      destruct (sqlite_int A); handler_steps; [|reflexivity].
      destruct (sqlite_int user_id); handler_steps; [|reflexivity].
      destruct (referrals d !! user_id) as [r|]; handler_steps; [|reflexivity].
      destruct (decide (period r = (get_current_period (now c)).2)); handler_steps;
        [|reflexivity].
      destruct (decide (ref_status r = "completed")); reflexivity.
  - left. unfold become_ambassador. handler_steps.
    destruct (sqlite_int user_id); handler_steps; [|reflexivity].
    destruct (ambassadors d !! user_id); reflexivity.
  - left. unfold get_referral_link. handler_steps.
    destruct (sqlite_int user_id); handler_steps; [|reflexivity].
    destruct (referrals d !! user_id); reflexivity.
  - unfold track_engagement.
    destruct (decide (chat_type ≠ "group" ∧ chat_type ≠ "supergroup")); [by left|].
    destruct (decide (GROUP_CHAT_ID ≠ 0 ∧ chat_id ≠ GROUP_CHAT_ID)); [by left|].
    handler_steps. destruct (sqlite_int user_id); handler_steps; [|by left].
    right; left. by do 4 eexists.
  - left. destruct data as [[A|]|[A|]| | | | |]; unfold button; handler_steps;
      try reflexivity.
    + destruct (sqlite_int user_id); handler_steps; [|reflexivity].
      destruct (sqlite_int A); handler_steps; [|reflexivity].
      destruct (users d !! user_id) as [u|]; handler_steps; [|reflexivity].
      destruct (decide (referrer u = Some A)); handler_steps; [|reflexivity].
      destruct (decide (user_status u ≠ "completed")); reflexivity.
    + destruct (sqlite_int user_id); handler_steps; [|reflexivity].
      destruct (referrals d !! user_id) as [r|]; handler_steps; [|reflexivity].
      destruct (decide (period r = (get_current_period (now c)).2)); handler_steps;
        [|reflexivity].
      destruct (decide (ref_status r ≠ "completed")); reflexivity.
    + unfold become_ambassador. handler_steps.
      destruct (sqlite_int user_id); handler_steps; [|reflexivity].
      destruct (ambassadors d !! user_id); reflexivity.
    + unfold get_referral_link. handler_steps.
      destruct (sqlite_int user_id); handler_steps; [|reflexivity].
      destruct (referrals d !! user_id); reflexivity.
  - unfold reset_weekly_engagement.
    destruct (decide (user_id ∉ ADMIN_IDS)); [by left|].
    right; right; left. by eexists.
  - unfold confirm_reset_handler.
    destruct (decide (user_id ∉ ADMIN_IDS)); [by left|].
    destruct confirm; [by do 3 right|by left].
  - by left.
Qed.

(** X6. The pair (user, week) identifies an engagement row in every store
    the bot can reach: the UNIQUE(user_id, period) constraint of the table
    is never put to the test. *)
Theorem engagement_rows_unique (d : db) :
  reachable d → NoDup (engagement_key <$> engagement d).
Proof.
  induction 1 as [|c u d Hreach IH]; [constructor|].
  destruct (dispatch_engagement c u d)
    as [->|[(user_id & name & stamp & week & ->)|[(week & ->)| ->]]].
  - exact IH.
  - rewrite upsert_keys.
    destruct (decide ((user_id, week) ∈ engagement_key <$> engagement d)); [exact IH|].
    apply NoDup_app. split; [exact IH|]. split; [|apply NoDup_singleton].
    intros x Hx ->%list_elem_of_singleton. done.
  - eapply sublist_NoDup; [exact IH|]. apply fmap_sublist, sublist_filter.
  - constructor.
Qed.

Lemma engagement_rows_unique_witness :
  NoDup (engagement_key <$> engagement engagement_db)
  ∧ engagement_key <$> engagement engagement_db
    = [(3001, "2025-W03"); (3002, "2025-W03"); (3001, "2025-W04")].
Proof.
  split; [|vm_compute; reflexivity].
  apply engagement_rows_unique. unfold engagement_db. cbn [run].
  do 4 apply reachable_step. apply reachable_init.
Defined.

(** ** Every update is one write *)

Lemma start_user_write c user_id name arg d : user_write c d (start c user_id name arg d).1.
Proof.
  unfold start, start_body.
  destruct arg as [[A|]|[A|]|]; handler_steps; try apply write_nothing.
  - destruct (sqlite_int A); handler_steps; [|apply write_nothing].
    destruct (ambassadors d !! A) as [a|] eqn:Ha; handler_steps; [|apply write_nothing].
    destruct (decide (A = user_id)); handler_steps; [apply write_nothing|].
    destruct (sqlite_int user_id); handler_steps; [|apply write_nothing].
    destruct (users d !! user_id) as [u|] eqn:Hu; handler_steps.
    + destruct (decide (user_status u = "completed")); apply write_nothing.
    + by apply write_ambassador_referral.
  - destruct (decide (A = user_id)); handler_steps; [apply write_nothing|].
    destruct (sqlite_int A); handler_steps; [|apply write_nothing].
    destruct (sqlite_int user_id); handler_steps; [|apply write_nothing].
    destruct (referrals d !! user_id) as [r|] eqn:Hr; handler_steps.
    + destruct (decide (period r = (get_current_period (now c)).2)); handler_steps.
      * destruct (decide (ref_status r = "completed")); apply write_nothing.
      * apply write_contest_referral; [done|]. intros r' Hr'.
        rewrite Hr in Hr'. by inversion Hr'; subst.
    + apply write_contest_referral; [done|]. intros r' Hr'.
      rewrite Hr in Hr'. discriminate Hr'.
Qed.

Lemma become_ambassador_user_write c via user_id name d :
  user_write c d (become_ambassador c via user_id name d).1.
Proof.
  unfold become_ambassador. handler_steps.
  destruct (sqlite_int user_id); handler_steps; [|apply write_nothing].
  destruct (ambassadors d !! user_id) eqn:Ha; handler_steps; [apply write_nothing|].
  by apply write_ambassador.
Qed.

Lemma get_referral_link_user_write c user_id name d :
  user_write c d (get_referral_link c user_id name d).1.
Proof.
  unfold get_referral_link. handler_steps.
  destruct (sqlite_int user_id); handler_steps; [|apply write_nothing].
  destruct (referrals d !! user_id) eqn:Hr; handler_steps; [apply write_nothing|].
  by apply write_link_owner.
Qed.

Lemma button_user_write c user_id name data d :
  user_write c d (button c user_id name data d).1.
Proof.
  destruct data as [[A|]|[A|]| | | | |]; unfold button; handler_steps;
    try apply write_nothing.
  - destruct (sqlite_int user_id); handler_steps; [|apply write_nothing].
    destruct (sqlite_int A); handler_steps; [|apply write_nothing].
    destruct (users d !! user_id) as [u|] eqn:Hu; handler_steps; [|apply write_nothing].
    destruct (decide (referrer u = Some A)); handler_steps; [|apply write_nothing].
    destruct (decide (user_status u ≠ "completed")); handler_steps;
      [|apply write_nothing].
    by eapply write_ambassador_completion.
  - destruct (sqlite_int user_id); handler_steps; [|apply write_nothing].
    destruct (referrals d !! user_id) as [r|] eqn:Hr; handler_steps;
      [|apply write_nothing].
    destruct (decide (period r = (get_current_period (now c)).2)); handler_steps;
      [|apply write_nothing].
    destruct (decide (ref_status r ≠ "completed")); handler_steps;
      [|apply write_nothing].
    by eapply write_contest_completion.
  - apply become_ambassador_user_write.
  - apply get_referral_link_user_write.
Qed.

Lemma dispatch_write c u d : write c d (dispatch c u d).1.
Proof.
  destruct u as [user_id name arg|user_id name|user_id name
    |chat_type chat_id user_id name|user_id name data|user_id|user_id confirm|user_id];
    cbn [dispatch].
  - apply write_by_user, start_user_write.
  - apply write_by_user, become_ambassador_user_write.
  - apply write_by_user, get_referral_link_user_write.
  - apply write_by_user. unfold track_engagement.
    destruct (decide (chat_type ≠ "group" ∧ chat_type ≠ "supergroup"));
      [apply write_nothing|].
    destruct (decide (GROUP_CHAT_ID ≠ 0 ∧ chat_id ≠ GROUP_CHAT_ID));
      [apply write_nothing|].
    handler_steps. destruct (sqlite_int user_id); handler_steps;
      [apply write_message|apply write_nothing].
  - apply write_by_user, button_user_write.
  - unfold reset_weekly_engagement.
    destruct (decide (user_id ∉ ADMIN_IDS));
      [apply write_by_user, write_nothing|apply write_weekly_reset].
  - unfold confirm_reset_handler.
    destruct (decide (user_id ∉ ADMIN_IDS)); [apply write_by_user, write_nothing|].
    destruct confirm; [apply write_full_reset|apply write_by_user, write_nothing].
  - apply write_by_user, write_nothing.
Qed.

(** ** Invariants of the reachable stores *)

Lemma reachable_write_ind (P : db → Prop) :
  P empty_db → (∀ c d d', P d → write c d d' → P d') →
  ∀ d, reachable d → P d.
Proof.
  intros Hinit Hstep d Hreach. induction Hreach as [|c u d Hreach IH]; [exact Hinit|].
  eapply Hstep; [exact IH|]. apply dispatch_write.
Qed.

Lemma write_keeps_users_well_formed c d d' :
  write c d d' → users_well_formed d → users_well_formed d'.
Proof.
  intros Hw Hinv.
  destruct Hw as [d'' [|B A Hnone Hne Hamb|U name Hnone|B A u Hu Href Hst
    |C D name Hne Hper|U name Hnone|C r Hr Hper Hst|user_id name]| |];
    try exact Hinv; intros B' u'; cbn [users ambassadors set_users set_ambassadors
      set_referrals empty_db].
  - destruct (decide (B = B')) as [->|HB].
    + rewrite lookup_insert_eq. intros [= <-]. exists A. cbn. by eauto.
    + rewrite lookup_insert_ne by done. apply Hinv.
  - intros Hu'. destruct (Hinv B' u' Hu') as (A & H1 & H2 & H3 & H4).
    exists A. repeat split; try done.
    destruct (decide (U = A)) as [->|HU];
      [rewrite lookup_insert_eq|rewrite lookup_insert_ne by done]; eauto.
  - destruct (decide (B = B')) as [->|HB].
    + rewrite lookup_alter_eq, Hu. intros [= <-].
      destruct (Hinv B' u Hu) as (A' & H1 & H2 & H3 & H4).
      exists A'. cbn. repeat split; try done; [|by right].
      by apply lookup_alter_is_Some.
    + rewrite lookup_alter_ne by done. intros Hu'.
      destruct (Hinv B' u' Hu') as (A' & H1 & H2 & H3 & H4).
      exists A'. repeat split; try done. by apply lookup_alter_is_Some.
  - rewrite lookup_empty. discriminate.
Qed.

(** X7. In every reachable store each ambassador relationship names a
    referrer who is an ambassador and is not the referred user, and its
    status is "pending" or "completed": no self-referral is ever stored. *)
Theorem ambassador_relationships_well_formed (d : db) :
  reachable d → users_well_formed d.
Proof.
  apply reachable_write_ind.
  - intros B u Hu. cbn in Hu. rewrite lookup_empty in Hu. discriminate Hu.
  - intros c d0 d' Hinv Hw. by eapply write_keeps_users_well_formed.
Qed.

Lemma ambassador_relationships_well_formed_witness :
  ∃ A, referrer (mk_user (Some 1001) "pending" 1736935200) = Some A
       ∧ A ≠ 1002 ∧ is_Some (ambassadors ambassador_pending_db !! A).
Proof.
  assert (Hreach : reachable ambassador_pending_db).
  { unfold ambassador_pending_db. cbn [run]. do 2 apply reachable_step.
    apply reachable_init. }
  destruct (ambassador_relationships_well_formed ambassador_pending_db Hreach 1002
              (mk_user (Some 1001) "pending" 1736935200) eq_refl)
    as (A & H1 & H2 & H3 & _).
  by exists A.
Defined.

Lemma no_referrals_for_stranger d U :
  users_well_formed d → ambassadors d !! U = None →
  ambassador_referral_count d U = 0%nat.
Proof.
  intros Hwf Hnone. unfold ambassador_referral_count.
  apply map_size_empty_iff, map_empty_filter.
  intros B u Hu [Href _]. cbn in Href.
  destruct (Hwf B u Hu) as (A & HA & _ & [a Ha] & _).
  rewrite HA in Href. inversion Href; subst. rewrite Hnone in Ha. discriminate Ha.
Qed.

Lemma write_keeps_points_match c d d' :
  write c d d' → users_well_formed d →
  points_match_referrals d → points_match_referrals d'.
Proof.
  intros Hw Hwf Hinv.
  destruct Hw as [d'' [|B A Hnone Hne Hamb|U name Hnone|B A u Hu Href Hst
    |C D name Hne Hper|U name Hnone|C r Hr Hper Hst|user_id name]| |];
    try exact Hinv; intros A' a'; unfold ambassador_referral_count;
    cbn [users ambassadors set_users set_ambassadors set_referrals empty_db].
  - intros Ha'. rewrite count_insert_skip.
    + by apply Hinv.
    + cbn. intros [_ Hbad]. discriminate Hbad.
    + intros y Hy. rewrite Hnone in Hy. discriminate Hy.
  - destruct (decide (U = A')) as [->|HU].
    + rewrite lookup_insert_eq. intros [= <-]. cbn [points].
      fold (ambassador_referral_count d A').
      by rewrite (no_referrals_for_stranger d A' Hwf Hnone).
    + rewrite lookup_insert_ne by done. by apply Hinv.
  - destruct (decide (A = A')) as [->|HA].
    + rewrite lookup_alter_eq.
      destruct (ambassadors d !! A') as [a|] eqn:Ha; [|discriminate].
      intros [= <-]. cbn [add_points points].
      rewrite (count_alter_gain _ _ B u); [| exact Hu | |].
      * rewrite (Hinv A' a Ha). unfold ambassador_referral_count, POINTS_PER_REFERRAL. lia.
      * cbn. intros [_ Hbad]. by apply Hst.
      * cbn. by split.
    + rewrite lookup_alter_ne by done. intros Ha'.
      rewrite count_alter_same; [by apply Hinv|].
      intros x Hx. rewrite Hu in Hx. inversion Hx; subst x. cbn.
      rewrite Href. split; intros [Hbad _]; inversion Hbad; by subst.
  - rewrite lookup_empty. discriminate.
Qed.

Lemma reachable_attribution_invariant d :
  reachable d → users_well_formed d ∧ points_match_referrals d.
Proof.
  apply (reachable_write_ind (λ d, users_well_formed d ∧ points_match_referrals d)).
  - split.
    + intros B u Hu. cbn in Hu. rewrite lookup_empty in Hu. discriminate Hu.
    + intros A a Ha. cbn in Ha. rewrite lookup_empty in Ha. discriminate Ha.
  - intros c d0 d' [Hwf Hpts] Hw. split.
    + by eapply write_keeps_users_well_formed.
    + by eapply write_keeps_points_match.
Qed.

(** X8. In every reachable store an ambassador's points equal
    POINTS_PER_REFERRAL times the number of completed relationships that
    name them as referrer: the "Points" and "Referrals" figures of the
    statistics always agree, so no credit is lost or granted twice. *)
Theorem points_equal_completed_referrals (d : db) :
  reachable d → points_match_referrals d.
Proof. intros Hreach. by apply reachable_attribution_invariant. Qed.

Lemma points_equal_completed_referrals_witness :
  let d := (button jan15 1002 (Some "bob") (amb_done_ (Some 1001)) ambassador_pending_db).1 in
  ambassador_referral_count d 1001 = 1%nat
  ∧ points (mk_ambassador "alice" 1 1736935200)
    = Z.of_nat (ambassador_referral_count d 1001) * POINTS_PER_REFERRAL.
Proof.
  cbv zeta. split; [vm_compute; reflexivity|].
  apply (points_equal_completed_referrals
           (button jan15 1002 (Some "bob") (amb_done_ (Some 1001)) ambassador_pending_db).1).
  - change (button jan15 1002 (Some "bob") (amb_done_ (Some 1001)) ambassador_pending_db)
      with (dispatch jan15 (button_pressed 1002 (Some "bob") (amb_done_ (Some 1001)))
              ambassador_pending_db).
    apply reachable_step. unfold ambassador_pending_db. cbn [run].
    do 2 apply reachable_step. apply reachable_init.
  - vm_compute. reflexivity.
Defined.

Lemma write_keeps_referrals_well_formed c d d' :
  write c d d' →
  (∀ U r, referrals d !! U = Some r → referral_well_formed U r) →
  ∀ U r, referrals d' !! U = Some r → referral_well_formed U r.
Proof.
  intros Hw Hinv.
  destruct Hw as [d'' [|B A Hnone Hne Hamb|U0 name Hnone|B A u Hu Href Hst
    |C D name Hne Hper|U0 name Hnone|C r0 Hr Hper Hst|user_id name]| |];
    try exact Hinv; intros U r; cbn [referrals set_referrals empty_db].
  - destruct (decide (C = U)) as [->|HC].
    + rewrite lookup_insert_eq. intros [= <-]. split; cbn.
      * intros [= ->]. done.
      * left. by eauto.
    + rewrite lookup_insert_ne by done. apply Hinv.
  - destruct (decide (U0 = U)) as [->|HU].
    + rewrite lookup_insert_eq. intros [= <-]. split; cbn; [discriminate|].
      right; right. done.
    + rewrite lookup_insert_ne by done. apply Hinv.
  - destruct (decide (C = U)) as [->|HC].
    + rewrite lookup_alter_eq, Hr. intros [= <-].
      destruct (Hinv U r0 Hr) as [Hself [(H1 & H2 & H3)|[(H1 & _)|(H1 & _)]]];
        try done.
      split; cbn; [exact Hself|]. right; left. by eauto.
    + rewrite lookup_alter_ne by done. apply Hinv.
  - rewrite lookup_empty. discriminate.
Qed.

(** X9. In every reachable store a contest row is never referred by its own
    identity and has one of three shapes: pending under a referrer without
    completion time; completed under a referrer with completion time; or
    completed without referrer and without completion time, the row of a
    link owner. A row that counts for a referrer thus always carries its
    completion time. *)
Theorem contest_rows_well_formed (d : db) :
  reachable d → ∀ U r, referrals d !! U = Some r → referral_well_formed U r.
Proof.
  apply (reachable_write_ind
           (λ d, ∀ U r, referrals d !! U = Some r → referral_well_formed U r)).
  - intros U r Hr. cbn in Hr. rewrite lookup_empty in Hr. discriminate Hr.
  - intros c d0 d' Hinv Hw. by eapply write_keeps_referrals_well_formed.
Qed.

Lemma contest_rows_well_formed_witness :
  referral_well_formed 2003
    (mk_referral (Some 2004) "carol" "completed" (Some 1736935200) "2025-M01").
Proof.
  apply (contest_rows_well_formed contest_completed_db).
  - unfold contest_completed_db. cbn [run]. do 2 apply reachable_step.
    apply reachable_init.
  - vm_compute. reflexivity.
Defined.

(** ** What users without admin rights can do *)

Lemma dispatch_user_write c u d :
  sender u ∉ ADMIN_IDS → user_write c d (dispatch c u d).1.
Proof.
  intros Hno.
  destruct u as [user_id name arg|user_id name|user_id name
    |chat_type chat_id user_id name|user_id name data|user_id|user_id confirm|user_id];
    cbn [dispatch sender] in *.
  - apply start_user_write.
  - apply become_ambassador_user_write.
  - apply get_referral_link_user_write.
  - unfold track_engagement.
    destruct (decide (chat_type ≠ "group" ∧ chat_type ≠ "supergroup"));
      [apply write_nothing|].
    destruct (decide (GROUP_CHAT_ID ≠ 0 ∧ chat_id ≠ GROUP_CHAT_ID));
      [apply write_nothing|].
    handler_steps. destruct (sqlite_int user_id); handler_steps;
      [apply write_message|apply write_nothing].
  - apply button_user_write.
  - unfold reset_weekly_engagement.
    destruct (decide (user_id ∉ ADMIN_IDS)); [apply write_nothing|done].
  - unfold confirm_reset_handler.
    destruct (decide (user_id ∉ ADMIN_IDS)); [apply write_nothing|done].
  - apply write_nothing.
Qed.

Lemma tables_kept_refl d : tables_kept d d.
Proof.
  split; [reflexivity|split; [|split]].
  - intros A a Ha. exists a. repeat split; [exact Ha|lia].
  - intros B u Hu. by left.
  - intros user_id week e He. exists e. split; [done|lia].
Qed.

Lemma user_write_keeps_tables c d d' : user_write c d d' → tables_kept d d'.
Proof.
  intros [|B A Hnone Hne Hamb|U name Hnone|B A u Hu Href Hst
    |C D name Hne Hper|U name Hnone|C r Hr Hper Hst|user_id name];
    try apply tables_kept_refl;
    (split; [reflexivity|]); cbn [ambassadors users referrals set_users set_ambassadors
      set_referrals];
    (split; [|split]);
    try (intros A' a' Ha'; exists a'; repeat split; [exact Ha'|lia]);
    try (intros B' u' Hu'; left; exact Hu');
    try (intros ? ? ? He; exists e; split; [exact He|lia]).
  - intros B' u' Hu'. left.
    rewrite lookup_insert_ne; [done|]. intros ->. rewrite Hnone in Hu'. discriminate Hu'.
  - intros A' a' Ha'. exists a'. repeat split; [|lia].
    rewrite lookup_insert_ne; [done|]. intros ->. rewrite Hnone in Ha'. discriminate Ha'.
  - intros A' a' Ha'. destruct (decide (A = A')) as [->|HA].
    + exists (add_points POINTS_PER_REFERRAL a'). rewrite lookup_alter_eq, Ha'.
      repeat split. cbn. unfold POINTS_PER_REFERRAL. lia.
    + exists a'. rewrite lookup_alter_ne by done. repeat split; [exact Ha'|lia].
  - intros B' u' Hu'. destruct (decide (B = B')) as [->|HB].
    + right. by rewrite lookup_alter_eq, Hu'.
    + left. by rewrite lookup_alter_ne.
  - intros user' week' e He. unfold engagement_of in *. cbn [engagement].
    destruct (decide (user' = user_id ∧ week' = (get_current_period (now c)).1))
      as [[-> ->]|Hne].
    + rewrite upsert_lookup_self, He. eexists. split; [reflexivity|]. cbn. lia.
    + rewrite upsert_lookup_other by done. exists e. split; [exact He|lia].
Qed.

Lemma contest_rows_same c who d d' :
  referrals d' = referrals d → contest_rows_confined c who d d'.
Proof.
  intros Heq. unfold contest_rows_confined. rewrite Heq.
  split; [done|]. intros r Hr. by left.
Qed.

Lemma start_contest_rows c user_id name arg d :
  contest_rows_confined c user_id d (start c user_id name arg d).1.
Proof.
  unfold start, start_body.
  destruct arg as [[A|]|[A|]|]; handler_steps; try by apply contest_rows_same.
  - destruct (sqlite_int A); handler_steps; [|by apply contest_rows_same].
    destruct (ambassadors d !! A) as [a|]; handler_steps; [|by apply contest_rows_same].
    destruct (decide (A = user_id)); handler_steps; [by apply contest_rows_same|].
    destruct (sqlite_int user_id); handler_steps; [|by apply contest_rows_same].
    destruct (users d !! user_id) as [u|]; handler_steps.
    + by destruct (decide (user_status u = "completed")); apply contest_rows_same.
    + by apply contest_rows_same.
  - destruct (decide (A = user_id)); handler_steps; [by apply contest_rows_same|].
    destruct (sqlite_int A); handler_steps; [|by apply contest_rows_same].
    destruct (sqlite_int user_id); handler_steps; [|by apply contest_rows_same].
    destruct (referrals d !! user_id) as [r|] eqn:Hr; handler_steps.
    + destruct (decide (period r = (get_current_period (now c)).2)) as [Hp|Hp];
        handler_steps.
      * by destruct (decide (ref_status r = "completed")); apply contest_rows_same.
      * split; cbn [referrals set_referrals].
        -- intros C HC. by rewrite lookup_insert_ne.
        -- intros r' Hr'. rewrite Hr in Hr'. injection Hr' as <-.
           right; right. split; [exact Hp|]. rewrite lookup_insert_eq. by eauto.
    + split; cbn [referrals set_referrals].
      * intros C HC. by rewrite lookup_insert_ne.
      * intros r' Hr'. rewrite Hr in Hr'. discriminate Hr'.
Qed.

Lemma become_ambassador_contest_rows c via user_id name d :
  contest_rows_confined c user_id d (become_ambassador c via user_id name d).1.
Proof.
  unfold become_ambassador. handler_steps.
  destruct (sqlite_int user_id); handler_steps; [|by apply contest_rows_same].
  by destruct (ambassadors d !! user_id); handler_steps; apply contest_rows_same.
Qed.

Lemma get_referral_link_contest_rows c user_id name d :
  contest_rows_confined c user_id d (get_referral_link c user_id name d).1.
Proof.
  unfold get_referral_link. handler_steps.
  destruct (sqlite_int user_id); handler_steps; [|by apply contest_rows_same].
  destruct (referrals d !! user_id) as [r|] eqn:Hr; handler_steps;
    [by apply contest_rows_same|].
  split; cbn [referrals set_referrals].
  - intros C HC. by rewrite lookup_insert_ne.
  - intros r' Hr'. rewrite Hr in Hr'. discriminate Hr'.
Qed.

Lemma button_contest_rows c user_id name data d :
  contest_rows_confined c user_id d (button c user_id name data d).1.
Proof.
  destruct data as [[A|]|[A|]| | | | |]; cbn [button];
    try apply become_ambassador_contest_rows;
    try apply get_referral_link_contest_rows;
    handler_steps; try by apply contest_rows_same.
  - destruct (sqlite_int user_id); handler_steps; [|by apply contest_rows_same].
    destruct (sqlite_int A); handler_steps; [|by apply contest_rows_same].
    destruct (users d !! user_id) as [u|]; handler_steps; [|by apply contest_rows_same].
    destruct (decide (referrer u = Some A)); handler_steps; [|by apply contest_rows_same].
    by destruct (decide (user_status u ≠ "completed")); handler_steps;
      apply contest_rows_same.
  - destruct (sqlite_int user_id); handler_steps; [|by apply contest_rows_same].
    destruct (referrals d !! user_id) as [r|] eqn:Hr; handler_steps;
      [|by apply contest_rows_same].
    destruct (decide (period r = (get_current_period (now c)).2)) as [Hp|Hp];
      handler_steps; [|by apply contest_rows_same].
    destruct (decide (ref_status r ≠ "completed")) as [Hs|Hs]; handler_steps;
      [|by apply contest_rows_same].
    split; cbn [referrals set_referrals].
    + intros C HC. by rewrite lookup_alter_ne.
    + intros r' Hr'. rewrite Hr in Hr'. injection Hr' as <-.
      right; left. by rewrite lookup_alter_eq, Hr.
Qed.

Lemma dispatch_contest_rows c u d :
  sender u ∉ ADMIN_IDS → contest_rows_confined c (sender u) d (dispatch c u d).1.
Proof.
  intros Hno.
  destruct u as [user_id name arg|user_id name|user_id name
    |chat_type chat_id user_id name|user_id name data|user_id|user_id confirm|user_id];
    cbn [dispatch sender] in *.
  - apply start_contest_rows.
  - apply become_ambassador_contest_rows.
  - apply get_referral_link_contest_rows.
  - unfold track_engagement.
    destruct (decide (chat_type ≠ "group" ∧ chat_type ≠ "supergroup"));
      [by apply contest_rows_same|].
    destruct (decide (GROUP_CHAT_ID ≠ 0 ∧ chat_id ≠ GROUP_CHAT_ID));
      [by apply contest_rows_same|].
    handler_steps. by destruct (sqlite_int user_id); handler_steps;
      apply contest_rows_same.
  - apply button_contest_rows.
  - unfold reset_weekly_engagement.
    destruct (decide (user_id ∉ ADMIN_IDS)); [by apply contest_rows_same|done].
  - unfold confirm_reset_handler.
    destruct (decide (user_id ∉ ADMIN_IDS)); [by apply contest_rows_same|done].
  - by apply contest_rows_same.
Qed.

(** X10. An update sent by anyone outside ADMIN_IDS, whatever handler it
    reaches, is confined as follows. The archive of winners is untouched.
    Every ambassador row stays, with its name and creation time and at least
    as many points. Every ambassador relationship stays, unchanged or
    completed. No engagement count of any week goes down. The contest row
    of every identity other than the sender is exactly as before (also
    absent when it was absent). The sender's own contest row is unchanged,
    or completed within its month, or, when it belongs to another month than
    the current one, replaced by a pending row of the current month: a
    completed row of an earlier month can thus be removed, but only by its
    own identity opening a contest link. *)
Theorem non_admin_update_is_confined (c : clock) (u : update) (d : db) :
  sender u ∉ ADMIN_IDS →
  tables_kept d (dispatch c u d).1
  ∧ contest_rows_confined c (sender u) d (dispatch c u d).1.
Proof.
  intros Hno. split.
  - eapply user_write_keeps_tables. by apply dispatch_user_write.
  - by apply dispatch_contest_rows.
Qed.

Lemma non_admin_update_is_confined_witness :
  let reentry := cmd_start 2003 (Some "carol") (ref_ (Some 2004)) in
  (tables_kept contest_completed_db (dispatch feb10 reentry contest_completed_db).1
   ∧ contest_rows_confined feb10 2003 contest_completed_db
       (dispatch feb10 reentry contest_completed_db).1)
  ∧ (tables_kept engagement_db (dispatch jan20 (reset_button 3001 true) engagement_db).1
     ∧ contest_rows_confined jan20 3001 engagement_db
         (dispatch jan20 (reset_button 3001 true) engagement_db).1).
Proof.
  split.
  - apply (non_admin_update_is_confined feb10
             (cmd_start 2003 (Some "carol") (ref_ (Some 2004))) contest_completed_db).
    cbn [sender]; unfold ADMIN_IDS.
    intros [H|H]%elem_of_cons; [discriminate H|by apply not_elem_of_nil in H].
  - apply (non_admin_update_is_confined jan20 (reset_button 3001 true) engagement_db).
    cbn [sender]; unfold ADMIN_IDS.
    intros [H|H]%elem_of_cons; [discriminate H|by apply not_elem_of_nil in H].
Defined.

(** ** The weekly reset, repeated *)

(** X11. A second weekly reset within the same week archives nothing and
    deletes nothing: the store stays exactly as the first reset left it, so
    no row is archived twice. *)
Theorem second_weekly_reset_adds_nothing (c1 c2 : clock) (admin : Z) (d : db) :
  admin ∈ ADMIN_IDS →
  (get_current_period (now c2)).1 = (get_current_period (now c1)).1 →
  let d1 := (reset_weekly_engagement c1 admin d).1 in
  reset_weekly_engagement c2 admin d1
    = (d1, weekly_reset_done (get_current_period (now c1)).1).
Proof.
  intros Hadmin Hweek d1. subst d1. unfold reset_weekly_engagement.
  destruct (decide (admin ∉ ADMIN_IDS)) as [|_]; [done|].
  cbn [fst engagement winners ambassadors users referrals]. rewrite Hweek.
  rewrite filter_period_split. cbn [map]. rewrite app_nil_r.
  f_equal. f_equal.
  rewrite list_filter_filter. apply list_filter_iff. intros e. tauto.
Qed.

Lemma second_weekly_reset_adds_nothing_witness :
  let d1 := (reset_weekly_engagement jan15 6454727490 engagement_db).1 in
  reset_weekly_engagement jan15 6454727490 d1 = (d1, weekly_reset_done "2025-W03")
  ∧ length (winners d1) = 2%nat.
Proof.
  assert (Hadmin : 6454727490 ∈ ADMIN_IDS) by (apply list_elem_of_In; left; reflexivity).
  pose proof (second_weekly_reset_adds_nothing jan15 jan15 6454727490 engagement_db
                Hadmin eq_refl) as H.
  cbv zeta in H. cbv zeta. split; [|vm_compute; reflexivity].
  etransitivity; [exact H|]. vm_compute. reflexivity.
Defined.

(** ** The owner of a contest link in a later month *)

(** X12. Asking for the own contest link again never touches an existing
    row, so the owner's row keeps the month of its creation. In any other
    month the owner is therefore treated like every visitor: opening V's
    contest link shows the tasks and replaces the owner's row by a pending
    row under V for that month. *)
Theorem link_owner_unblocked_next_month
    (c1 c2 : clock) (U V : Z) (name : option string) (d : db) :
  sqlite_int U = true → sqlite_int V = true → V ≠ U →
  referrals d !! U = None →
  (get_current_period (now c2)).2 ≠ (get_current_period (now c1)).2 →
  let d1 := (get_referral_link c1 U name d).1 in
  let again := get_referral_link c2 U name d1 in
  let opened := start c2 U name (ref_ (Some V)) again.1 in
  again = (d1, referral_contest_link U)
  ∧ (∃ shown, opened.2 = show_referral_tasks V shown)
  ∧ referrals opened.1 !! U =
      Some (mk_referral (Some V) (display_name "User" U name) "pending" None
              (get_current_period (now c2)).2).
Proof.
  intros HU HV Hne Hnone Hmonth d1 again opened.
  assert (Hrow : referrals d1 !! U =
            Some (mk_referral None (display_name "User" U name) "completed" None
                    (get_current_period (now c1)).2)).
  { subst d1. unfold get_referral_link. handler_steps. rewrite HU. handler_steps.
    rewrite Hnone. handler_steps. cbn [referrals set_referrals].
    apply lookup_insert_eq. }
  assert (Hagain : again = (d1, referral_contest_link U)).
  { subst again. unfold get_referral_link. handler_steps. rewrite HU. handler_steps.
    by rewrite Hrow. }
  split; [exact Hagain|]. subst opened. rewrite Hagain. cbn [fst].
  destruct (start_ref_registers c2 U V name d1 HU HV Hne) as [shown Hstart].
  { intros r Hr. rewrite Hrow in Hr. inversion Hr; subst r. cbn [period].
    intros Heq. apply Hmonth. symmetry. exact Heq. }
  rewrite Hstart. cbn [fst snd referrals set_referrals].
  split; [by eexists|]. apply lookup_insert_eq.
Qed.

Lemma link_owner_unblocked_next_month_witness :
  let d1 := (get_referral_link jan15 3001 (Some "dave") empty_db).1 in
  get_referral_link feb10 3001 (Some "dave") d1 = (d1, referral_contest_link 3001)
  ∧ referrals (start feb10 3001 (Some "dave") (ref_ (Some 2004)) d1).1 !! 3001
    = Some (mk_referral (Some 2004) "dave" "pending" None "2025-M02").
Proof.
  pose proof (link_owner_unblocked_next_month jan15 feb10 3001 2004 (Some "dave")
                empty_db eq_refl eq_refl) as H.
  cbv zeta in H. destruct H as (H1 & _ & H3); try discriminate; try reflexivity.
  cbv zeta. split; [exact H1|].
  rewrite H1 in H3. etransitivity; [exact H3|]. vm_compute. reflexivity.
Defined.

(** ** Payloads that cannot be used *)

(** X13. A link or button payload that is no integer, or an integer outside
    SQLite's 64-bit range, ends in the generic error answer with the store
    untouched; only the contest "Done!" button, which never uses its
    payload, is unaffected by such a number. *)
Theorem unusable_payload_changes_nothing
    (c : clock) (user_id z : Z) (name : option string) (d : db) :
  sqlite_int z = false →
  start c user_id name (amb_ None) d = (d, error_occurred)
  ∧ start c user_id name (ref_ None) d = (d, error_occurred)
  ∧ button c user_id name (amb_done_ None) d = (d, error_occurred)
  ∧ button c user_id name (ref_done_ None) d = (d, error_occurred)
  ∧ start c user_id name (amb_ (Some z)) d = (d, error_occurred)
  ∧ (z ≠ user_id → start c user_id name (ref_ (Some z)) d = (d, error_occurred))
  ∧ button c user_id name (amb_done_ (Some z)) d = (d, error_occurred)
  ∧ button c user_id name (ref_done_ (Some z)) d
    = button c user_id name (ref_done_ (Some 0)) d.
Proof.
  intros Hz. repeat split; try reflexivity.
  - unfold start, start_body. handler_steps. by rewrite Hz.
  - intros Hne. unfold start, start_body. handler_steps.
    destruct (decide (z = user_id)); [done|]. by rewrite Hz.
  - unfold button. handler_steps. destruct (sqlite_int user_id); handler_steps;
      [by rewrite Hz|reflexivity].
Qed.

Lemma unusable_payload_changes_nothing_witness :
  start jan15 1002 (Some "bob") (amb_ (Some (2 ^ 63))) ambassador_pending_db
    = (ambassador_pending_db, error_occurred)
  ∧ button jan15 1002 (Some "bob") (amb_done_ (Some (2 ^ 63))) ambassador_pending_db
    = (ambassador_pending_db, error_occurred).
Proof.
  pose proof (unusable_payload_changes_nothing jan15 1002 (2 ^ 63) (Some "bob")
                ambassador_pending_db eq_refl) as H.
  destruct H as (_ & _ & _ & _ & H5 & _ & H7 & _). split; [exact H5|exact H7].
Defined.

(** ** The admin report *)

(** X14. The monthly "Referrals" figure of the admin report counts every
    completed contest row of the month, with or without referrer: when a
    user without contest row generates the own link, the figure rises by
    one, though nobody was referred, and the other figures stay. *)
Theorem report_counts_link_owners
    (c1 c2 : clock) (admin U : Z) (name : option string) (d : db) :
  admin ∈ ADMIN_IDS → sqlite_int U = true → referrals d !! U = None →
  (get_current_period (now c2)).2 = (get_current_period (now c1)).2 →
  ∃ before after,
    report c2 admin d = Some before
    ∧ report c2 admin (get_referral_link c1 U name d).1 = Some after
    ∧ report_referrals after = S (report_referrals before)
    ∧ report_ambassadors after = report_ambassadors before
    ∧ report_points after = report_points before
    ∧ report_engaged after = report_engaged before
    ∧ report_messages after = report_messages before.
Proof.
  intros Hadmin HU Hnone Hmonth. unfold report.
  destruct (decide (admin ∉ ADMIN_IDS)) as [|_]; [done|].
  do 2 eexists. split; [reflexivity|]. split; [reflexivity|].
  unfold get_referral_link. handler_steps. rewrite HU. handler_steps.
  rewrite Hnone. handler_steps.
  cbn [report_referrals report_ambassadors report_points report_engaged
       report_messages referrals ambassadors engagement set_referrals].
  split; [|done].
  rewrite map_filter_insert_True
    by (split; [reflexivity | symmetry; exact Hmonth]).
  apply map_size_insert_None. apply map_lookup_filter_None. by left.
Qed.

Lemma report_counts_link_owners_witness :
  (report_referrals <$> report jan20 6454727490 contest_completed_db) = Some 1%nat
  ∧ (report_referrals <$>
       report jan20 6454727490
         (get_referral_link jan15 3001 (Some "dave") contest_completed_db).1)
    = Some 2%nat.
Proof.
  assert (Hadmin : 6454727490 ∈ ADMIN_IDS) by (apply list_elem_of_In; left; reflexivity).
  destruct (report_counts_link_owners jan15 jan20 6454727490 3001 (Some "dave")
              contest_completed_db Hadmin eq_refl eq_refl eq_refl)
    as (before & after & Hb & Ha & Hcount & _).
  assert (Hone : report_referrals before = 1%nat).
  { assert (Heq : Some before = report jan20 6454727490 contest_completed_db)
      by (symmetry; exact Hb).
    vm_compute in Heq. inversion Heq. reflexivity. }
  rewrite Hb, Ha. cbn [fmap option_fmap option_map]. rewrite Hcount, Hone.
  split; reflexivity.
Defined.

(** ** The statistics of an ambassador *)

(** X15. For an ambassador in a reachable store the statistics show both
    the ambassador block and figures that agree: the points printed are
    POINTS_PER_REFERRAL times the referrals printed. *)
Theorem my_stats_points_agree_with_referrals
    (c : clock) (user_id : Z) (d : db) (a : ambassador) :
  reachable d → sqlite_int user_id = true → ambassadors d !! user_id = Some a →
  ∃ st n, my_stats c user_id d = Some st
          ∧ shown_points st = Some (points a)
          ∧ shown_ambassador_referrals st = Some n
          ∧ points a = Z.of_nat n * POINTS_PER_REFERRAL.
Proof.
  intros Hreach Hint Ha. unfold my_stats. handler_steps. rewrite Hint. handler_steps.
  rewrite Ha. do 2 eexists. split; [reflexivity|]. cbn.
  split; [reflexivity|]. split; [reflexivity|].
  by apply points_equal_completed_referrals.
Qed.

Lemma my_stats_points_agree_with_referrals_witness :
  let d := (dispatch jan15 (button_pressed 1002 (Some "bob") (amb_done_ (Some 1001)))
              ambassador_pending_db).1 in
  ∃ st, my_stats jan20 1001 d = Some st
        ∧ shown_points st = Some 1 ∧ shown_ambassador_referrals st = Some 1%nat.
Proof.
  cbv zeta.
  destruct (my_stats_points_agree_with_referrals jan20 1001
              (dispatch jan15 (button_pressed 1002 (Some "bob") (amb_done_ (Some 1001)))
                 ambassador_pending_db).1
              (mk_ambassador "alice" 1 1736935200))
    as (st & n & Hst & Hp & Hn & Heq).
  - apply reachable_step. unfold ambassador_pending_db. cbn [run].
    do 2 apply reachable_step. apply reachable_init.
  - reflexivity.
  - vm_compute. reflexivity.
  - exists st. split; [exact Hst|]. split; [exact Hp|].
    rewrite Hn. f_equal. cbn in Heq. unfold POINTS_PER_REFERRAL in Heq. lia.
Defined.

(** ** The period calculator on every valid date *)

Lemma day_of_year_range y m d :
  1 <= m <= 12 -> 1 <= d <= days_in_month y m ->
  1 <= days_before_month y m + d <= 365 + (if is_leap y then 1 else 0).
Proof.
  intros Hm Hd.
  assert (Hcases : m = 1 ∨ m = 2 ∨ m = 3 ∨ m = 4 ∨ m = 5 ∨ m = 6 ∨ m = 7 ∨ m = 8
                   ∨ m = 9 ∨ m = 10 ∨ m = 11 ∨ m = 12) by lia.
  clear Hm.
  unfold days_before_month.
  repeat (destruct Hcases as [->|Hcases]); try subst m;
    match goal with
    | |- context [Z.to_nat ?e] =>
        let n := eval vm_compute in (Z.to_nat e) in change (Z.to_nat e) with n
    end;
    cbv - [is_leap Z.add Z.le Z.lt] in Hd |- *; destruct (is_leap y); lia.
Qed.

Lemma year_length y :
  days_before_year (y + 1) - days_before_year y = 365 + (if is_leap y then 1 else 0).
Proof.
  unfold days_before_year, is_leap.
  replace (y + 1 - 1) with y by lia.
  destruct (y mod 4 =? 0) eqn:H4; destruct (y mod 100 =? 0) eqn:H100;
    destruct (y mod 400 =? 0) eqn:H400; cbn [andb orb negb];
    rewrite ?Z.eqb_eq, ?Z.eqb_neq in *; Z.div_mod_to_equations; lia.
Qed.

Lemma isoweek1monday_range y :
  days_before_year y + 1 - 3 <= isoweek1monday y <= days_before_year y + 1 + 3
  ∧ (isoweek1monday y + 6) mod 7 = 0.
Proof.
  unfold isoweek1monday, ymd2ord. change (days_before_month y 1) with 0.
  set (f := days_before_year y + 0 + 1). 
  destruct (3 <? (f + 6) mod 7) eqn:H; rewrite ?Z.ltb_lt, ?Z.ltb_ge in H;
    subst f; split; Z.div_mod_to_equations; lia.
Qed.

Lemma isocalendar_spec (now : datetime) :
  valid_date now →
  let today := ymd2ord (year now) (month now) (day now) in
  let iy := (isocalendar now).1.1 in
  let w := (isocalendar now).1.2 in
  let wd := (isocalendar now).2 in
  1 <= w <= 53 ∧ 1 <= wd <= 7
  ∧ year now - 1 <= iy <= year now + 1
  ∧ today = isoweek1monday iy + 7 * (w - 1) + (wd - 1)
  ∧ isoweek1monday iy <= today < isoweek1monday (iy + 1).
Proof.
  intros (Hy & Hm & Hd) today iy w wd. subst iy w wd.
  destruct now as [y m d]. cbn [year month day] in *.
  pose proof (day_of_year_range y m d Hm Hd) as Hdoy.
  pose proof (year_length (y - 1)) as HL0. replace (y - 1 + 1) with y in HL0 by lia.
  pose proof (year_length y) as HL1.
  pose proof (year_length (y + 1)) as HL2.
  pose proof (isoweek1monday_range (y - 1)) as [R0 M0].
  pose proof (isoweek1monday_range y) as [R1 M1].
  pose proof (isoweek1monday_range (y + 1)) as [R2 M2].
  pose proof (isoweek1monday_range (y + 1 + 1)) as [R3 M3].
  unfold isocalendar. cbn [year month day]. fold today.
  assert (Htoday : today = days_before_year y + (days_before_month y m + d))
    by (unfold today, ymd2ord; lia).
  assert (E0 : isoweek1monday (y - 1 + 1) = isoweek1monday y) by (f_equal; lia).
  remember (days_before_month y m + d) as doy eqn:Edoy. clear Edoy. clearbody today.
  remember (isoweek1monday (y - 1)) as a0 eqn:Ea0.
  remember (isoweek1monday y) as a1 eqn:Ea1.
  remember (isoweek1monday (y + 1 + 1)) as a3 eqn:Ea3.
  remember (isoweek1monday (y + 1)) as a2 eqn:Ea2.
  remember (days_before_year (y - 1)) as b0 eqn:Eb0. clear Eb0.
  remember (days_before_year (y + 1 + 1)) as b3 eqn:Eb3. clear Eb3.
  remember (days_before_year (y + 1)) as b2 eqn:Eb2. clear Eb2.
  remember (days_before_year y) as b1 eqn:Eb1. clear Eb1.
  assert (L0 : 0 <= (if is_leap (y - 1) then 1 else 0) <= 1) by (destruct (is_leap (y-1)); lia).
  assert (L1 : 0 <= (if is_leap y then 1 else 0) <= 1) by (destruct (is_leap y); lia).
  assert (L2 : 0 <= (if is_leap (y + 1) then 1 else 0) <= 1) by (destruct (is_leap (y+1)); lia).
  remember (if is_leap (y - 1) then 1 else 0) as l0 eqn:El0. clear El0.
  remember (if is_leap y then 1 else 0) as l1 eqn:El1. clear El1.
  remember (if is_leap (y + 1) then 1 else 0) as l2 eqn:El2. clear El2.
  destruct ((today - a1) / 7 <? 0) eqn:Hneg; rewrite ?Z.ltb_lt, ?Z.ltb_ge in Hneg.
  - cbn [fst snd]. rewrite E0, <- Ea0. clear E0 Ea0 Ea1 Ea2 Ea3.
    repeat split; Z.div_mod_to_equations; lia.
  - destruct ((52 <=? (today - a1) / 7) && (a2 <=? today)) eqn:Hlate.
    + apply andb_true_iff in Hlate as [H52 Hge]. rewrite Z.leb_le in H52, Hge.
      cbn [fst snd]. rewrite <- Ea2, <- Ea3. clear E0 Ea0 Ea1 Ea2 Ea3.
      repeat split; Z.div_mod_to_equations; lia.
    + apply andb_false_iff in Hlate. cbn [fst snd].
      rewrite <- Ea1, <- Ea2. clear E0 Ea0 Ea1 Ea2 Ea3.
      destruct Hlate as [H52|Hlt]; rewrite Z.leb_gt in *;
        repeat split; Z.div_mod_to_equations; lia.
Qed.

Lemma pretty_N_go_dash_free (x : N) (s : string) :
  dash_free s → dash_free (pretty_N_go x s).
Proof.
  revert s. induction (N.lt_wf_0 x) as [x _ IH]; intros s Hs.
  destruct (decide (x = 0)%N) as [->|Hx]; [by rewrite pretty_N_go_0|].
  rewrite pretty_N_go_step by lia. apply IH.
  - apply N.div_lt; lia.
  - split; [|exact Hs]. unfold pretty_N_char. repeat case_match; discriminate.
Qed.

Lemma pretty_Z_dash_free (z : Z) : 0 <= z → dash_free (pretty z).
Proof.
  intros Hz. destruct z as [|p|p]; [cbn; split; [discriminate|exact I]| |lia].
  unfold pretty, pretty_Z, pretty, pretty_positive, pretty, pretty_N.
  destruct (decide (N.pos p = 0%N)); [discriminate|].
  by apply pretty_N_go_dash_free.
Qed.

Lemma split_at_dash (s1 s2 t1 t2 : string) :
  dash_free s1 → dash_free s2 →
  s1 +:+ "-" +:+ t1 = s2 +:+ "-" +:+ t2 → s1 = s2 ∧ t1 = t2.
Proof.
  revert s2. induction s1 as [|a s1 IH]; intros [|b s2] H1 H2 Heq; cbn in *.
  - by inversion Heq.
  - inversion Heq; subst. by destruct H2 as [H2 _].
  - inversion Heq; subst. by destruct H1 as [H1 _].
  - inversion Heq; subst. destruct (IH s2) as [-> ->]; tauto.
Qed.

Lemma fmt_02d_table : NoDup (fmt_02d <$> seqZ 0 100).
Proof. apply (bool_decide_unpack _). vm_compute. reflexivity. Qed.

Lemma fmt_02d_inj (a b : Z) :
  0 <= a < 100 → 0 <= b < 100 → fmt_02d a = fmt_02d b → a = b.
Proof.
  intros Ha Hb Heq.
  assert (Hlook : ∀ x, 0 <= x < 100 →
            (fmt_02d <$> seqZ 0 100) !! Z.to_nat x = Some (fmt_02d x)).
  { intros x Hx. rewrite list_lookup_fmap, lookup_seqZ_lt by lia.
    cbn. f_equal. f_equal. lia. }
  pose proof (proj1 (NoDup_alt _) fmt_02d_table (Z.to_nat a) (Z.to_nat b) (fmt_02d a)
                (Hlook a Ha)) as H.
  rewrite Heq in H. specialize (H (Hlook b Hb)). lia.
Qed.

Lemma period_key_split (y1 y2 : Z) (tag : string) (a b : Z) :
  0 <= y1 → 0 <= y2 → 0 <= a < 100 → 0 <= b < 100 →
  pretty y1 +:+ "-" +:+ tag +:+ fmt_02d a = pretty y2 +:+ "-" +:+ tag +:+ fmt_02d b →
  y1 = y2 ∧ a = b.
Proof.
  intros Hy1 Hy2 Ha Hb Heq.
  apply split_at_dash in Heq as [Hy Hrest]; try by apply pretty_Z_dash_free.
  split; [by apply (inj pretty)|].
  apply fmt_02d_inj; try done.
  by apply (inj (String.append tag)) in Hrest.
Qed.

(** X16. On valid dates the period keys are faithful to what they are built
    from: two dates get the same month key exactly when they agree in year
    and month, and the same week key exactly when they agree in calendar
    year and ISO week number. *)
Theorem period_keys_identify_their_parts (n1 n2 : datetime) :
  valid_date n1 → valid_date n2 →
  ((get_current_period n1).2 = (get_current_period n2).2
     ↔ year n1 = year n2 ∧ month n1 = month n2)
  ∧ ((get_current_period n1).1 = (get_current_period n2).1
     ↔ year n1 = year n2 ∧ (isocalendar n1).1.2 = (isocalendar n2).1.2).
Proof.
  intros V1 V2.
  pose proof (isocalendar_spec n1 V1) as (W1 & _).
  pose proof (isocalendar_spec n2 V2) as (W2 & _).
  destruct V1 as (Hy1 & Hm1 & _), V2 as (Hy2 & Hm2 & _).
  cbn [get_current_period fst snd]. unfold month_key, week_key. split; split.
  - intros Heq.
    apply (period_key_split _ _ "M") in Heq; [exact Heq|lia..].
  - intros [-> ->]. reflexivity.
  - intros Heq.
    apply (period_key_split _ _ "W") in Heq; [exact Heq|lia..].
  - intros [-> ->]. reflexivity.
Qed.

Lemma period_keys_identify_their_parts_witness :
  (get_current_period (mk_datetime 2025 1 15)).2 ≠ (get_current_period (mk_datetime 2025 2 10)).2
  ∧ (get_current_period (mk_datetime 2025 1 15)).1 = (get_current_period (mk_datetime 2025 1 13)).1.
Proof.
  assert (V1 : valid_date (mk_datetime 2025 1 15)) by (vm_compute; intuition discriminate).
  assert (V2 : valid_date (mk_datetime 2025 2 10)) by (vm_compute; intuition discriminate).
  assert (V3 : valid_date (mk_datetime 2025 1 13)) by (vm_compute; intuition discriminate).
  split.
  - intros Heq.
    apply (proj1 (period_keys_identify_their_parts _ _ V1 V2)) in Heq as [_ Hm].
    discriminate Hm.
  - apply (proj2 (period_keys_identify_their_parts _ _ V1 V3)). split; reflexivity.
Defined.

(** X17. Away from the turn of the year the week key is a true ISO week
    bucket: for two valid dates whose ISO year is their calendar year, the
    week keys are equal exactly when ISO year and ISO week agree, and then
    the dates lie in one Monday-to-Sunday span, at most 6 days apart. *)
Theorem week_key_is_iso_week_within_iso_year (n1 n2 : datetime) :
  valid_date n1 → valid_date n2 →
  (isocalendar n1).1.1 = year n1 → (isocalendar n2).1.1 = year n2 →
  ((get_current_period n1).1 = (get_current_period n2).1
     ↔ (isocalendar n1).1 = (isocalendar n2).1)
  ∧ ((get_current_period n1).1 = (get_current_period n2).1 →
     - 6 <= ymd2ord (year n1) (month n1) (day n1)
            - ymd2ord (year n2) (month n2) (day n2) <= 6).
Proof.
  intros V1 V2 I1 I2.
  destruct (period_keys_identify_their_parts n1 n2 V1 V2) as [_ Hweek].
  assert (Hiff : (get_current_period n1).1 = (get_current_period n2).1
                 ↔ (isocalendar n1).1 = (isocalendar n2).1).
  { rewrite Hweek. split.
    - intros [Hy Hw]. apply injective_projections; [congruence|exact Hw].
    - intros Heq. split; [rewrite <- I1, <- I2|]; by rewrite Heq. }
  split; [exact Hiff|]. intros Hkey. apply Hiff in Hkey.
  pose proof (isocalendar_spec n1 V1) as (_ & D1 & _ & E1 & _).
  pose proof (isocalendar_spec n2 V2) as (_ & D2 & _ & E2 & _).
  cbv zeta in E1, E2. rewrite E1, E2, Hkey. lia.
Qed.

Lemma week_key_is_iso_week_within_iso_year_witness :
  (get_current_period (mk_datetime 2025 1 13)).1 = (get_current_period (mk_datetime 2025 1 19)).1
  ∧ - 6 <= ymd2ord 2025 1 13 - ymd2ord 2025 1 19 <= 6.
Proof.
  assert (V1 : valid_date (mk_datetime 2025 1 13)) by (vm_compute; intuition discriminate).
  assert (V2 : valid_date (mk_datetime 2025 1 19)) by (vm_compute; intuition discriminate).
  destruct (week_key_is_iso_week_within_iso_year _ _ V1 V2 eq_refl eq_refl) as [Hiff Hspan].
  assert (Hkey : (get_current_period (mk_datetime 2025 1 13)).1
                 = (get_current_period (mk_datetime 2025 1 19)).1)
    by (apply Hiff; vm_compute; reflexivity).
  split; [exact Hkey|]. exact (Hspan Hkey).
Defined.

(** ** Leaderboards *)

Lemma more_first_transitive : Transitive more_first.
Proof. intros a b c. unfold more_first. lia. Qed.

Lemma more_first_total : Total more_first.
Proof. intros a b. unfold more_first. lia. Qed.

Lemma top_ten_sorted_possible rows : top_ten rows (top_ten_sorted rows).
Proof.
  exists (merge_sort more_first rows). split; [apply merge_sort_Permutation|].
  split; [|reflexivity].
  apply (@StronglySorted_merge_sort _ _ _ more_first_transitive more_first_total).
Qed.

Lemma top_ten_shape rows top :
  top_ten rows top →
  length top = Nat.min 10 (length rows)
  ∧ StronglySorted more_first top
  ∧ (∃ rest, top ++ rest ≡ₚ rows ∧ ∀ y x, y ∈ top → x ∈ rest → x.2 ≤ y.2).
Proof.
  intros (sorted & Hperm & Hsorted & ->).
  split; [by rewrite length_take, (Permutation_length Hperm)|].
  rewrite <- (take_drop 10 sorted) in Hsorted.
  split; [by eapply StronglySorted_app_1_l|].
  exists (drop 10 sorted). split; [by rewrite take_drop|].
  intros y x Hy Hx. by apply (StronglySorted_app_1_elem_of _ _ _ _ _ Hsorted).
Qed.

(** X18. Whatever order SQLite gives equal counts, the weekly engagement
    leaderboard prints min(10, rows of the week) lines in non-increasing
    order of messages, each a row of the current week, and no row left out
    has more messages than a row printed; it is empty exactly when the week
    has no rows. Some such list always exists. *)
Theorem engagement_leaderboard_shape (c : clock) (d : db) (top : list (string * Z)) :
  engagement_leaderboard c d top →
  let rows := engagement_entries d (get_current_period (now c)).1 in
  length top = Nat.min 10 (length rows)
  ∧ StronglySorted more_first top
  ∧ (∀ y, y ∈ top → y ∈ rows)
  ∧ (∃ rest, top ++ rest ≡ₚ rows ∧ ∀ y x, y ∈ top → x ∈ rest → x.2 ≤ y.2)
  ∧ (top = [] ↔ rows = [])
  ∧ engagement_leaderboard c d (top_ten_sorted rows).
Proof.
  intros Htop rows. destruct (top_ten_shape _ _ Htop) as (Hlen & Hsorted & rest & Hperm & Hmax).
  fold rows in Hlen, Hperm.
  split; [exact Hlen|]. split; [exact Hsorted|]. split.
  { intros y Hy. rewrite <- Hperm. apply elem_of_app. by left. }
  split; [by exists rest|]. split.
  - split.
    + intros ->. destruct rows; [done|]. cbn in Hlen. discriminate Hlen.
    + intros Hrows. rewrite Hrows in Hlen. cbn in Hlen.
      by apply length_zero_iff_nil.
  - apply top_ten_sorted_possible.
Qed.

Lemma engagement_leaderboard_shape_witness :
  engagement_leaderboard jan15 engagement_db [("dave", 2); ("User3002", 1)]
  ∧ length [("dave", 2); ("User3002", 1)]
    = Nat.min 10 (length (engagement_entries engagement_db "2025-W03")).
Proof.
  assert (Htop : engagement_leaderboard jan15 engagement_db [("dave", 2); ("User3002", 1)]).
  { exists [("dave", 2); ("User3002", 1)]. split; [vm_compute; reflexivity|].
    split; [|reflexivity].
    repeat constructor; unfold more_first; cbn; lia. }
  split; [exact Htop|].
  destruct (engagement_leaderboard_shape jan15 engagement_db _ Htop) as (Hlen & _).
  exact Hlen.
Defined.

Lemma archive_entries_after_reset c admin d week :
  admin ∈ ADMIN_IDS → week = (get_current_period (now c)).1 →
  archive_entries (reset_weekly_engagement c admin d).1 week
    = archive_entries d week ++ engagement_entries d week.
Proof.
  intros Hadmin ->. unfold reset_weekly_engagement.
  destruct (decide (admin ∉ ADMIN_IDS)) as [|_]; [done|].
  unfold archive_entries, engagement_entries. cbn [fst winners].
  rewrite filter_app, fmap_app. f_equal.
  induction (engagement d) as [|e rows IH]; [reflexivity|].
  rewrite (filter_cons (λ e, eng_period e = _)).
  destruct (decide (eng_period e = (get_current_period (now c)).1)) as [He|He];
    [|exact IH].
  cbn [map]. rewrite filter_cons_True by (by split).
  cbn [fmap list_fmap]. f_equal. exact IH.
Qed.

(** X19. After an admin's weekly reset the archive view of that week lists
    the archived rows after those archived before; when the week had not
    been archived before, the archive shows exactly what the leaderboard
    could show just before the reset, and the leaderboard of the week is
    empty. *)
Theorem archive_shows_last_leaderboard
    (c : clock) (admin : Z) (d : db) (top : list (string * Z)) :
  admin ∈ ADMIN_IDS →
  let week := (get_current_period (now c)).1 in
  let d' := (reset_weekly_engagement c admin d).1 in
  archive_entries d' week = archive_entries d week ++ engagement_entries d week
  ∧ (archive_entries d week = [] →
     (show_archive_detail admin week d' top ↔ engagement_leaderboard c d top))
  ∧ (engagement_leaderboard c d' top ↔ top = []).
Proof.
  intros Hadmin week d'.
  assert (Heq : archive_entries d' week
                = archive_entries d week ++ engagement_entries d week)
    by (by apply archive_entries_after_reset).
  split; [exact Heq|]. split.
  - intros Hnone. unfold show_archive_detail, engagement_leaderboard.
    rewrite Heq, Hnone. cbn [app]. fold week. tauto.
  - unfold engagement_leaderboard. fold week.
    assert (Hempty : engagement_entries d' week = []).
    { subst d'. unfold engagement_entries, reset_weekly_engagement.
      destruct (decide (admin ∉ ADMIN_IDS)) as [|_]; [done|].
      cbn [fst engagement]. fold week. by rewrite filter_period_split. }
    rewrite Hempty. split.
    + intros (sorted & Hperm & _ & ->). apply Permutation_nil_r in Hperm.
      by rewrite Hperm.
    + intros ->. exists []. repeat split; constructor.
Qed.

Lemma archive_shows_last_leaderboard_witness :
  let d' := (reset_weekly_engagement jan15 6454727490 engagement_db).1 in
  archive_entries d' "2025-W03" = [("dave", 2); ("User3002", 1)]
  ∧ show_archive_detail 6454727490 "2025-W03" d' [("dave", 2); ("User3002", 1)].
Proof.
  assert (Hadmin : 6454727490 ∈ ADMIN_IDS) by (apply list_elem_of_In; left; reflexivity).
  destruct (archive_shows_last_leaderboard jan15 6454727490 engagement_db
              [("dave", 2); ("User3002", 1)] Hadmin) as (Heq & Hiff & _).
  split.
  - etransitivity; [exact Heq|]. vm_compute. reflexivity.
  - apply Hiff; [vm_compute; reflexivity|].
    exists [("dave", 2); ("User3002", 1)]. split; [vm_compute; reflexivity|].
    split; [|reflexivity]. repeat constructor; unfold more_first; cbn; lia.
Defined.
